(** * Agent workflow: event sourcing and saga compensation

    A shallow embedding of [orchestrator/workflows/agent_saga.py]: the
    [SagaContext] compensation stack, the [AgentWorkflow] event log with
    its derived state, and the [run] protocol that drives them.

    Python objects are mutated in place; here every method takes the
    object and returns the updated one.  Activities are calls to the
    Temporal host; the host is a section variable that answers each call
    from the history of the calls made before it, so nothing is assumed
    about what an activity returns or whether it is deterministic. *)

From stdpp Require Import gmap strings list fin_maps pretty.

Set Warnings "-register-all,-clear-no-such-hyp".
Open Scope string_scope.
Open Scope list_scope.

(** ** Python values and strings *)

(** [Any]: the JSON-like values that travel in activity inputs and
    results.  A [dict[str, Any]] is a [gmap string value]; the insertion
    order of a Python dict is not observable through the operations the
    workflow uses ([get], [items] followed by keyed stores, equality). *)
Inductive value : Type :=
  | VNone
  | VBool (b : bool)
  | VInt (n : Z)
  | VStr (s : string)
  | VList (l : list value)
  | VDict (d : gmap string value).

Abbreviation dict := (gmap string value).

(** Python strings are sequences of code points; here they are the
    byte strings of their UTF-8 encoding.  The patterns the workflow
    searches for and replaces are ASCII, and no byte of a multi-byte
    UTF-8 sequence is an ASCII byte, so searching and replacing on the
    bytes is searching and replacing on the code points. *)
Module PyStr.

(** [s.startswith(p)] *)
Fixpoint startswith (s p : string) {struct p} : bool :=
  match p with
  | EmptyString => true
  | String a p' =>
      match s with
      | EmptyString => false
      | String b s' => if Ascii.eqb a b then startswith s' p' else false
      end
  end.

(** [p in s] *)
Fixpoint contains (s p : string) : bool :=
  startswith s p ||
  match s with
  | EmptyString => false
  | String _ s' => contains s' p
  end.

(** The scan of [str.replace] for a non-empty pattern: occurrences are
    taken leftmost first and do not overlap; [skip] counts the
    characters of a matched occurrence still to be dropped. *)
Fixpoint replace_from (skip : nat) (s old new : string) : string :=
  match s with
  | EmptyString => EmptyString
  | String c s' =>
      match skip with
      | S k => replace_from k s' old new
      | O =>
          if startswith s old
          then new +:+ replace_from (String.length old - 1) s' old new
          else String c (replace_from 0 s' old new)
      end
  end.

(** [s.replace("", new)] puts [new] before every character and at the
    end. *)
Fixpoint interleave (s new : string) : string :=
  match s with
  | EmptyString => new
  | String c s' => new +:+ String c (interleave s' new)
  end.

(** [s.replace(old, new)] *)
Definition replace (s old new : string) : string :=
  match old with
  | EmptyString => interleave s new
  | String _ _ => replace_from 0 s old new
  end.

End PyStr.

(** ** Saga context *)

Record CompensationStep : Type := mkCompensationStep {
  activity_name : string;
  input : dict;
  step_id : string;
}.

(** The placeholder rule applied to one value of the compensation input:
    the body of the loop of [_inject_result_values]. *)
Definition inject_value (result : dict) (v : value) : value :=
  match v with
  | VStr s =>
      if PyStr.startswith s "{result."
      then
        let field_name := PyStr.replace (PyStr.replace s "{result." "") "}" "" in
        default v (result !! field_name)
      else v
  | _ => v
  end.

(** [SagaContext._inject_result_values]: a new dict is filled key by key
    while iterating over the items of [compensation_input]. *)
Definition _inject_result_values (compensation_input result : dict) : dict :=
  map_fold (fun key v injected => <[key := inject_value result v]> injected)
           ∅ compensation_input.

(** ** Activities and the Temporal host *)

(** A plan step as the workflow reads it: [step["tool"]] must be there,
    every other key is read with [get].  The key ["name"] is only logged
    and ["depends_on"] is never read. *)
Record PlanStep : Type := mkPlanStep {
  ps_id : option string;
  ps_tool : option string;
  ps_input : option dict;
  ps_compensation : option string;
  ps_compensation_input : option dict;
}.

(** The dict returned by the [check_semantic_cache] activity, by the keys
    [run] reads; a dict with none of them is the empty dict. *)
Record CachedPlan : Type := mkCachedPlan {
  cp_template_id : option string;
  cp_plan_id : option string;
  cp_steps : option (list PlanStep);
}.

(** The dict returned by the [generate_plan_with_llm] activity. *)
Record GeneratedPlan : Type := mkGeneratedPlan {
  gp_plan_id : option string;
  gp_steps : option (list PlanStep);
}.

(** One entry of the list returned by [rollback]:
    [{"step_id", "success": True, "result"}] or
    [{"step_id", "success": False, "error"}]. *)
Record CompensationResult : Type := mkCompensationResult {
  cr_step_id : string;
  cr_success : bool;
  cr_result : option dict;
  cr_error : option string;
}.

(** The dict returned by [_handle_success]. *)
Record SuccessResult : Type := mkSuccessResult {
  sr_status : string;
  sr_plan_id : string;
  sr_steps_executed : nat;
  sr_results : gmap string dict;
}.

(** The dict built by [_handle_failure]. *)
Record FailureResult : Type := mkFailureResult {
  fr_status : string;
  fr_plan_id : string;
  fr_failed_step_id : string;
  fr_error : string;
  fr_compensation_executed : bool;
  fr_compensation_results : list CompensationResult;
}.

(** The exceptions that travel through the workflow.  All of them derive
    from [Exception]; [ActivityError] is the one the workflow tells
    apart.  Cancellation, which is not an [Exception], is not part of the
    model. *)
Inductive exn : Type :=
  | ActivityError (msg : string)
  | KeyError (key : string)
  | AttributeError (msg : string)
  | OtherException (msg : string)
  | ApplicationError (msg : string) (non_retryable : bool) (details : FailureResult).

(** [str(e)] *)
Definition str (e : exn) : string :=
  match e with
  | ActivityError msg => msg
  | KeyError key => "'" +:+ key +:+ "'"
  | AttributeError msg => msg
  | OtherException msg => msg
  | ApplicationError msg _ _ => msg
  end.

Definition is_activity_error (e : exn) : bool :=
  match e with ActivityError _ => true | _ => false end.

Inductive outcome (A : Type) : Type :=
  | Returned (a : A)
  | Raised (e : exn).
Arguments Returned {A} a.
Arguments Raised {A} e.

(** A call of [workflow.execute_activity], with the timeout in seconds
    and the attempts of its retry policy. *)
Inductive Call : Type :=
  | CheckSemanticCache (goal : string)
  | GeneratePlanWithLlm (goal : string) (context : dict)
  | ExecuteActivity (name : string) (args : dict)
      (start_to_close_timeout maximum_attempts : Z).

(** The host answers a call knowing the calls made before it. *)
Record Host : Type := mkHost {
  check_semantic_cache : list Call -> string -> outcome (option CachedPlan);
  generate_plan_with_llm : list Call -> string -> dict -> outcome GeneratedPlan;
  execute_activity : list Call -> string -> dict -> Z -> Z -> outcome dict;
}.

(** ** Saga context, continued *)

Record SagaContext : Type := mkSagaContext {
  compensation_stack : list CompensationStep;
  rollback_executed : bool;
}.

(** ** Events *)

(** Modelled from the spec: the event classes of [models.events] are not
    part of the sources at hand; the fields are those of the spec's Event
    union, which are also the keyword arguments the workflow passes to
    each constructor.  [duration_seconds] is always [0.0] and is left
    out. *)
Inductive AgentEvent : Type :=
  | GoalReceived (correlation_id goal user_id : string) (context : option dict)
  | PlanGenerated (correlation_id plan_id : string) (steps : list PlanStep)
      (cache_hit : bool) (template_id : option string)
  | ToolCallRequested (correlation_id tool_name : string) (tool_input : dict)
      (step_id : string) (compensation_activity : option string)
  | ToolResultReceived (correlation_id tool_name step_id : string)
      (success : bool) (result : option dict) (error : option string)
  | WorkflowCompleted (correlation_id plan_id : string) (total_steps : nat)
      (final_result : SuccessResult)
  | WorkflowFailed (correlation_id plan_id failed_step_id error_message : string)
      (compensation_executed : bool)
      (compensation_results : list CompensationResult).

(** ** The workflow object *)

Record AgentWorkflow : Type := mkAgentWorkflow {
  events : list AgentEvent;
  saga : option SagaContext;
  goal : string;
  user_id : string;
  plan_id : string;
  plan_steps : list PlanStep;
  step_results : gmap string dict;
  failed_step_id : string;
  MAX_HISTORY_SIZE : nat;
}.

(** [AgentWorkflow.__init__] *)
Definition __init__ : AgentWorkflow :=
  {| events := []; saga := None; goal := ""; user_id := ""; plan_id := "";
     plan_steps := []; step_results := ∅; failed_step_id := "";
     MAX_HISTORY_SIZE := 1000 |}.

(** What a run can change: the workflow object, the history of the calls
    made to the host, and the continue-as-new warnings written to the
    workflow logger, each with the event-history size it reports (the
    other log lines carry no state and are left out). *)
Record State : Type := mkState {
  self : AgentWorkflow;
  history : list Call;
  continue_as_new_warnings : list nat;
}.

Definition initial_state : State :=
  {| self := __init__; history := []; continue_as_new_warnings := [] |}.

Definition set_self (f : AgentWorkflow -> AgentWorkflow) (st : State) : State :=
  {| self := f (self st); history := history st;
     continue_as_new_warnings := continue_as_new_warnings st |}.

Definition set_saga (sg : option SagaContext) (w : AgentWorkflow) : AgentWorkflow :=
  {| events := events w; saga := sg; goal := goal w; user_id := user_id w;
     plan_id := plan_id w; plan_steps := plan_steps w;
     step_results := step_results w; failed_step_id := failed_step_id w;
     MAX_HISTORY_SIZE := MAX_HISTORY_SIZE w |}.

Definition set_step_result (sid : string) (r : dict) (w : AgentWorkflow) : AgentWorkflow :=
  {| events := events w; saga := saga w; goal := goal w; user_id := user_id w;
     plan_id := plan_id w; plan_steps := plan_steps w;
     step_results := <[sid := r]> (step_results w);
     failed_step_id := failed_step_id w;
     MAX_HISTORY_SIZE := MAX_HISTORY_SIZE w |}.

Definition set_failed_step_id (sid : string) (w : AgentWorkflow) : AgentWorkflow :=
  {| events := events w; saga := saga w; goal := goal w; user_id := user_id w;
     plan_id := plan_id w; plan_steps := plan_steps w;
     step_results := step_results w; failed_step_id := sid;
     MAX_HISTORY_SIZE := MAX_HISTORY_SIZE w |}.

(** ** A state and exception monad for the coroutines of the workflow

    A raised exception keeps the state reached so far, as an exception
    leaves the mutations already made to a Python object in place. *)
Definition M (A : Type) : Type := State -> outcome A * State.

Definition ret {A} (a : A) : M A := fun st => (Returned a, st).

Definition raise {A} (e : exn) : M A := fun st => (Raised e, st).

Definition bind {A B} (m : M A) (k : A -> M B) : M B :=
  fun st =>
    match m st with
    | (Returned a, st') => k a st'
    | (Raised e, st') => (Raised e, st')
    end.

(** [try: m  except Exception as e: h e] *)
Definition try_except {A} (m : M A) (h : exn -> M A) : M A :=
  fun st =>
    match m st with
    | (Returned a, st') => (Returned a, st')
    | (Raised e, st') => h e st'
    end.

(** [try: m  except ActivityError as e: h e] *)
Definition try_except_ActivityError {A} (m : M A) (h : exn -> M A) : M A :=
  try_except m (fun e => if is_activity_error e then h e else raise e).

Definition get_self : M AgentWorkflow := fun st => (Returned (self st), st).

Definition modify_self (f : AgentWorkflow -> AgentWorkflow) : M unit :=
  fun st => (Returned tt, set_self f st).

(** [d[key]] on a key that may be missing *)
Definition subscript {A} (key : string) (field : option A) : M A :=
  match field with
  | Some a => ret a
  | None => raise (KeyError key)
  end.

Declare Scope saga_scope.
Delimit Scope saga_scope with saga.
Notation "x <~ m ;; k" := (bind m (fun x => k))
  (at level 100, m at next level, right associativity) : saga_scope.
Notation "m ;;; k" := (bind m (fun _ => k))
  (at level 100, right associativity) : saga_scope.

Section Workflow.

(** The Temporal host and [workflow.info().workflow_id]. *)
Variable host : Host.
Variable workflow_id : string.

Open Scope saga_scope.

(** *** [AgentWorkflow._execute_activity] *)
Definition _execute_activity (activity_name : string) (activity_input : dict)
    (step_id : string) (is_compensation : bool) : M dict :=
  fun st =>
    let timeout := if is_compensation then 15%Z else 30%Z in
    let attempts := if negb is_compensation then 3%Z else 2%Z in
    (execute_activity host (history st) activity_name activity_input timeout attempts,
     {| self := self st;
        history := history st ++ [ExecuteActivity activity_name activity_input timeout attempts];
        continue_as_new_warnings := continue_as_new_warnings st |}).

(** *** [SagaContext], reached through [self.saga] *)

Definition get_saga : M SagaContext :=
  w <~ get_self ;;
  match saga w with
  | Some sg => ret sg
  | None => raise (AttributeError "'NoneType' object has no attribute")
  end.

Definition put_saga (sg : SagaContext) : M unit :=
  modify_self (set_saga (Some sg)).

(** Truth value of an [Optional[str]]: [None] and [""] are false. *)
Definition truthy_str (s : option string) : option string :=
  match s with
  | Some (String c s') => Some (String c s')
  | _ => None
  end.

(** [SagaContext.execute_with_compensation], called as
    [self.saga.execute_with_compensation(...)]: the saga must be there
    before anything is executed. *)
Definition execute_with_compensation (activity_name : string)
    (activity_input : dict) (compensation_activity : option string)
    (compensation_input : option dict) (step_id : string) : M dict :=
  get_saga ;;;
  result <~ _execute_activity activity_name activity_input step_id false ;;
  match truthy_str compensation_activity with
  | Some compensation_activity =>
      let comp_input := default ∅ compensation_input in
      let injected_input := _inject_result_values comp_input result in
      let compensation :=
        {| activity_name := compensation_activity;
           input := injected_input;
           step_id := step_id |} in
      sg <~ get_saga ;;
      put_saga {| compensation_stack := compensation_stack sg ++ [compensation];
                  rollback_executed := rollback_executed sg |} ;;;
      ret result
  | None => ret result
  end.

(** One turn of the loop of [rollback]: the compensation is executed
    and its outcome, result or error, is appended to [results]. *)
Definition rollback_step (compensation : CompensationStep)
    (results : list CompensationResult) : M (list CompensationResult) :=
  try_except
    (result <~ _execute_activity (activity_name compensation) (input compensation)
                 (step_id compensation) true ;;
     ret (results ++ [ {| cr_step_id := step_id compensation; cr_success := true;
                          cr_result := Some result; cr_error := None |} ]))
    (fun e =>
     ret (results ++ [ {| cr_step_id := step_id compensation; cr_success := false;
                          cr_result := None; cr_error := Some (str e) |} ])).

Fixpoint rollback_loop (compensations : list CompensationStep)
    (results : list CompensationResult) : M (list CompensationResult) :=
  match compensations with
  | [] => ret results
  | compensation :: rest =>
      results' <~ rollback_step compensation results ;;
      rollback_loop rest results'
  end.

(** [SagaContext.rollback] *)
Definition rollback : M (list CompensationResult) :=
  sg <~ get_saga ;;
  if rollback_executed sg then ret []
  else
    put_saga {| compensation_stack := compensation_stack sg;
                rollback_executed := true |} ;;;
    match compensation_stack sg with
    | [] => ret []
    | _ :: _ => rollback_loop (reverse (compensation_stack sg)) []
    end.

(** *** [AgentWorkflow._append_event] *)

(** The update of the derived state by event type. *)
Definition update_derived_state (event : AgentEvent) (w : AgentWorkflow) : AgentWorkflow :=
  match event with
  | GoalReceived _ g u _ =>
      {| events := events w; saga := saga w; goal := g; user_id := u;
         plan_id := plan_id w; plan_steps := plan_steps w;
         step_results := step_results w; failed_step_id := failed_step_id w;
         MAX_HISTORY_SIZE := MAX_HISTORY_SIZE w |}
  | PlanGenerated _ p steps _ _ =>
      {| events := events w; saga := saga w; goal := goal w; user_id := user_id w;
         plan_id := p; plan_steps := steps;
         step_results := step_results w; failed_step_id := failed_step_id w;
         MAX_HISTORY_SIZE := MAX_HISTORY_SIZE w |}
  | _ => w
  end.

Definition append_to_events (event : AgentEvent) (w : AgentWorkflow) : AgentWorkflow :=
  {| events := events w ++ [event]; saga := saga w; goal := goal w;
     user_id := user_id w; plan_id := plan_id w; plan_steps := plan_steps w;
     step_results := step_results w; failed_step_id := failed_step_id w;
     MAX_HISTORY_SIZE := MAX_HISTORY_SIZE w |}.

(** The continue-as-new check: a warning is logged, nothing else is
    done (the call of [_continue_as_new] is commented out). *)
Definition check_continue_as_new : M unit :=
  fun st =>
    if (MAX_HISTORY_SIZE (self st) <=? length (events (self st)))%nat
    then (Returned tt,
          {| self := self st; history := history st;
             continue_as_new_warnings :=
               continue_as_new_warnings st ++ [length (events (self st))] |})
    else (Returned tt, st).

Definition _append_event (event : AgentEvent) : M unit :=
  modify_self (append_to_events event) ;;;
  modify_self (update_derived_state event) ;;;
  check_continue_as_new.

(** *** [AgentWorkflow._check_semantic_cache] *)

Definition call_check_semantic_cache (g : string) : M (option CachedPlan) :=
  fun st =>
    (check_semantic_cache host (history st) g,
     {| self := self st; history := history st ++ [CheckSemanticCache g];
        continue_as_new_warnings := continue_as_new_warnings st |}).

(** Truth value of the cache reply: [None] and the empty dict are
    false. *)
Definition truthy_plan (r : option CachedPlan) : option CachedPlan :=
  match r with
  | Some {| cp_template_id := None; cp_plan_id := None; cp_steps := None |} => None
  | _ => r
  end.

Definition _check_semantic_cache (g : string) : M (option CachedPlan) :=
  try_except_ActivityError
    (result <~ call_check_semantic_cache g ;;
     ret (truthy_plan result))
    (fun _ => ret None).

(** *** [AgentWorkflow._generate_plan_with_llm] *)
Definition _generate_plan_with_llm (g : string) (context : dict) : M GeneratedPlan :=
  fun st =>
    (generate_plan_with_llm host (history st) g context,
     {| self := self st; history := history st ++ [GeneratePlanWithLlm g context];
        continue_as_new_warnings := continue_as_new_warnings st |}).

(** *** [AgentWorkflow._execute_plan] *)

(** [step.get("id", f"step_{idx}")] *)
Definition step_id_of (idx : nat) (step : PlanStep) : string :=
  default ("step_" +:+ pretty idx) (ps_id step).

(** The body of the loop over [enumerate(self.plan_steps)]. *)
Definition execute_step (idx : nat) (step : PlanStep) : M unit :=
  let step_id := step_id_of idx step in
  tool <~ subscript "tool" (ps_tool step) ;;
  _append_event (ToolCallRequested workflow_id tool (default ∅ (ps_input step))
                   step_id (ps_compensation step)) ;;;
  try_except_ActivityError
    (result <~ execute_with_compensation tool (default ∅ (ps_input step))
                 (ps_compensation step) (ps_compensation_input step) step_id ;;
     _append_event (ToolResultReceived workflow_id tool step_id true
                      (Some result) None) ;;;
     modify_self (set_step_result step_id result))
    (fun e =>
     _append_event (ToolResultReceived workflow_id tool step_id false
                      None (Some (str e))) ;;;
     modify_self (set_failed_step_id step_id) ;;;
     raise e).

Fixpoint execute_steps (idx : nat) (steps : list PlanStep) : M unit :=
  match steps with
  | [] => ret tt
  | step :: rest => execute_step idx step ;;; execute_steps (S idx) rest
  end.

Definition _execute_plan : M unit :=
  w <~ get_self ;;
  execute_steps 0 (plan_steps w).

(** *** [AgentWorkflow._handle_success] *)
Definition _handle_success : M SuccessResult :=
  w <~ get_self ;;
  let result :=
    {| sr_status := "completed"; sr_plan_id := plan_id w;
       sr_steps_executed := length (plan_steps w);
       sr_results := step_results w |} in
  _append_event (WorkflowCompleted workflow_id (plan_id w)
                   (length (plan_steps w)) result) ;;;
  ret result.

(** *** [AgentWorkflow._handle_failure] *)
Definition _handle_failure (error_message : string) : M FailureResult :=
  compensation_results <~ rollback ;;
  w <~ get_self ;;
  let result :=
    {| fr_status := "failed"; fr_plan_id := plan_id w;
       fr_failed_step_id := failed_step_id w; fr_error := error_message;
       fr_compensation_executed := true;
       fr_compensation_results := compensation_results |} in
  _append_event (WorkflowFailed workflow_id (plan_id w) (failed_step_id w)
                   error_message true compensation_results) ;;;
  ret result.

(** *** [AgentWorkflow.run] *)

(** The body of the [try] block. *)
Definition run_try (g u : string) (context : option dict) : M SuccessResult :=
  _append_event (GoalReceived workflow_id g u context) ;;;
  cached_plan <~ _check_semantic_cache g ;;
  match truthy_plan cached_plan with
  | Some cached_plan =>
      template_id <~ subscript "template_id" (cp_template_id cached_plan) ;;
      p <~ subscript "plan_id" (cp_plan_id cached_plan) ;;
      steps <~ subscript "steps" (cp_steps cached_plan) ;;
      _append_event (PlanGenerated workflow_id p steps true
                       (cp_template_id cached_plan))
  | None =>
      plan <~ _generate_plan_with_llm g (default ∅ context) ;;
      p <~ subscript "plan_id" (gp_plan_id plan) ;;
      steps <~ subscript "steps" (gp_steps plan) ;;
      _append_event (PlanGenerated workflow_id p steps false None)
  end ;;;
  _execute_plan ;;;
  _handle_success.

(** The [except Exception as e] block. *)
Definition run_except (e : exn) : M SuccessResult :=
  workflow_result <~ _handle_failure (str e) ;;
  raise (ApplicationError ("Workflow failed: " +:+ str e) true workflow_result).

Definition run (g u : string) (context : option dict) : M SuccessResult :=
  put_saga {| compensation_stack := []; rollback_executed := false |} ;;;
  try_except (run_try g u context) run_except.

(** *** Replay *)

(** The derived state as a fold of the state update of [_append_event]
    over an event sequence, from a freshly initialised workflow. *)
Definition replay (evs : list AgentEvent) : AgentWorkflow :=
  fold_left (fun w event => update_derived_state event w) evs __init__.

End Workflow.

(** ** Vocabulary of the properties *)

(** The call that [rollback] makes for a compensation: the compensation
    timeout of 15 seconds and 2 attempts. *)
Definition compensation_call (c : CompensationStep) : Call :=
  ExecuteActivity (activity_name c) (input c) 15 2.

(** The entry of the rollback result list for a compensation whose
    activity ended with [o]. *)
Definition compensation_entry (c : CompensationStep) (o : outcome dict)
    : CompensationResult :=
  match o with
  | Returned r =>
      {| cr_step_id := step_id c; cr_success := true;
         cr_result := Some r; cr_error := None |}
  | Raised e =>
      {| cr_step_id := step_id c; cr_success := false;
         cr_result := None; cr_error := Some (str e) |}
  end.

(** The ids under which the steps of a plan are executed, from index
    [idx] on. *)
Fixpoint step_ids (idx : nat) (steps : list PlanStep) : list string :=
  match steps with
  | [] => []
  | step :: rest => step_id_of idx step :: step_ids (S idx) rest
  end.

(** [m] keeps the property [P] of the state, however it ends. *)
Definition preserves {A} (P : State -> Prop) (m : M A) : Prop :=
  forall st, P st -> P (snd (m st)).

(** The saga exists and has not been rolled back. *)
Definition saga_armed (st : State) : Prop :=
  exists sg, saga (self st) = Some sg /\ rollback_executed sg = false.

(** The state in which [run] enters its [try] block: [self.saga] is a new
    [SagaContext]. *)
Definition with_new_saga (st : State) : State :=
  set_self (set_saga (Some {| compensation_stack := []; rollback_executed := false |})) st.

(** Nothing is stored in [step_results] yet. *)
Definition no_results (st : State) : Prop := step_results (self st) = ∅.

(** The calls [h0] have been made, in that order, before any other. *)
Definition history_extends (h0 : list Call) (st : State) : Prop :=
  h0 `prefix_of` history st.

(** The fields that [_append_event] derives from the events agree with
    the replay of the event log. *)
Definition derived_from_events (st : State) : Prop :=
  let w := self st in
  let r := replay (events w) in
  goal w = goal r /\ user_id w = user_id r /\
  plan_id w = plan_id r /\ plan_steps w = plan_steps r.

(** A host that differs from [host] only in that every cache lookup is a
    miss. *)
Definition with_cache_miss (host : Host) : Host :=
  {| check_semantic_cache := fun _ _ => Returned None;
     generate_plan_with_llm := generate_plan_with_llm host;
     execute_activity := execute_activity host |}.

(** ** Concrete hosts and plans

    Small runs used to exercise the definitions. *)
Module Scenario.

Definition step (id tool : string) (compensation : option string)
    (compensation_input : option dict) : PlanStep :=
  {| ps_id := Some id; ps_tool := Some tool; ps_input := None;
     ps_compensation := compensation;
     ps_compensation_input := compensation_input |}.

(** Goal "book Paris trip": flight then hotel, each with its
    cancellation. *)
Definition paris_plan : list PlanStep :=
  [ step "step_0" "book_flight" (Some "cancel_flight")
      (Some {[ "booking_id" := VStr "{result.booking_id}" ]});
    step "step_1" "book_hotel" (Some "cancel_hotel")
      (Some {[ "booking_id" := VStr "{result.booking_id}" ]}) ].

Definition flight_result : dict := {[ "booking_id" := VStr "BK123" ]}.
Definition hotel_result : dict := {[ "booking_id" := VStr "H77" ]}.

(** Every tool and every compensation succeeds. *)
Definition tools_ok (h : list Call) (name : string) (args : dict)
    (timeout attempts : Z) : outcome dict :=
  if String.eqb name "book_flight" then Returned flight_result
  else if String.eqb name "book_hotel" then Returned hotel_result
  else Returned ∅.

(** [book_hotel] fails after its retries. *)
Definition tools_hotel_fails (h : list Call) (name : string) (args : dict)
    (timeout attempts : Z) : outcome dict :=
  if String.eqb name "book_hotel" then Raised (ActivityError "hotel unavailable")
  else tools_ok h name args timeout attempts.

Definition cache_miss (h : list Call) (g : string) : outcome (option CachedPlan) :=
  Returned None.

Definition cache_down (h : list Call) (g : string) : outcome (option CachedPlan) :=
  Raised (ActivityError "cache unavailable").

Definition planner (steps : list PlanStep) (h : list Call) (g : string)
    (context : dict) : outcome GeneratedPlan :=
  Returned {| gp_plan_id := Some "plan_1"; gp_steps := Some steps |}.


Definition host_paris_ok : Host :=
  {| check_semantic_cache := cache_miss;
     generate_plan_with_llm := planner paris_plan;
     execute_activity := tools_ok |}.

Definition host_paris_hotel_fails : Host :=
  {| check_semantic_cache := cache_miss;
     generate_plan_with_llm := planner paris_plan;
     execute_activity := tools_hotel_fails |}.

Definition host_cache_down : Host :=
  {| check_semantic_cache := cache_down;
     generate_plan_with_llm := planner paris_plan;
     execute_activity := tools_ok |}.


(** Two steps that carry the same id. *)
Definition twin_plan : list PlanStep :=
  [ step "a" "book_flight" None None; step "a" "book_hotel" None None ].

Definition host_twin : Host :=
  {| check_semantic_cache := cache_miss;
     generate_plan_with_llm := planner twin_plan;
     execute_activity := tools_ok |}.

(** A long plan: [n] steps without ids and without compensation. *)
Definition long_plan (n : nat) : list PlanStep :=
  replicate n {| ps_id := None; ps_tool := Some "noop"; ps_input := None;
                 ps_compensation := None; ps_compensation_input := None |}.

Definition host_long (n : nat) : Host :=
  {| check_semantic_cache := cache_miss;
     generate_plan_with_llm := planner (long_plan n);
     execute_activity := tools_ok |}.

Definition wid : string := "wf-1".

(** The run of a fresh workflow on [host]. *)
Abbreviation go host :=
  (run host wid "book Paris trip" "user-1" None initial_state).

(** The state in which the [try] block of a run on [host] ends. *)
Definition after_try (host : Host) : State :=
  snd (run_try host wid "book Paris trip" "user-1" None (with_new_saga initial_state)).

Definition paris_failed_try : State := after_try host_paris_hotel_fails.

(** The saga of the Paris run when the hotel booking has failed. *)
Definition paris_saga : SagaContext :=
  {| compensation_stack :=
       [ {| activity_name := "cancel_flight";
            input := {[ "booking_id" := VStr "BK123" ]};
            step_id := "step_0" |} ];
     rollback_executed := false |}.

End Scenario.

(** ** The phases of a run *)

Section Phases.

Variable host : Host.
Variable workflow_id : string.

Open Scope saga_scope.

(** Steps 2 and 3 of [run]: the cache lookup, then the cached plan or
    the plan of the LLM, recorded as [PlanGenerated]. *)
Definition find_plan (g : string) (context : option dict) : M unit :=
  cached_plan <~ _check_semantic_cache host g ;;
  match truthy_plan cached_plan with
  | Some cached_plan =>
      template_id <~ subscript "template_id" (cp_template_id cached_plan) ;;
      p <~ subscript "plan_id" (cp_plan_id cached_plan) ;;
      steps <~ subscript "steps" (cp_steps cached_plan) ;;
      _append_event (PlanGenerated workflow_id p steps true
                       (cp_template_id cached_plan))
  | None =>
      plan <~ _generate_plan_with_llm host g (default ∅ context) ;;
      p <~ subscript "plan_id" (gp_plan_id plan) ;;
      steps <~ subscript "steps" (gp_steps plan) ;;
      _append_event (PlanGenerated workflow_id p steps false None)
  end.

(** Steps 4 and 5 of [run]. *)
Definition execute_and_finish : M SuccessResult :=
  _execute_plan host workflow_id ;;; _handle_success workflow_id.

(** The state of a run once the goal is recorded. *)
Definition goal_recorded (g u : string) (context : option dict) (st : State) : State :=
  snd (_append_event (GoalReceived workflow_id g u context) (with_new_saga st)).

End Phases.

(** ** More vocabulary *)


(** An entry of the rollback list is either a success with its result or
    a failure with its error. *)
Definition well_formed_entry (r : CompensationResult) : Prop :=
  if cr_success r
  then is_Some (cr_result r) /\ cr_error r = None
  else cr_result r = None /\ is_Some (cr_error r).

(** The compensations that the steps of a plan register when they
    succeed, as (compensation activity, step id), from index [idx] on. *)
Fixpoint compensations (idx : nat) (steps : list PlanStep) : list (string * string) :=
  match steps with
  | [] => []
  | step :: rest =>
      match truthy_str (ps_compensation step) with
      | Some c => [(c, step_id_of idx step)]
      | None => []
      end ++ compensations (S idx) rest
  end.

(** The call that executes a plan step: the step timeout of 30 seconds
    and 3 attempts. *)
Definition step_call (step : PlanStep) : option Call :=
  tool ← ps_tool step;
  Some (ExecuteActivity tool (default ∅ (ps_input step)) 30 3).

Definition is_planner_call (c : Call) : bool :=
  match c with GeneratePlanWithLlm _ _ => true | _ => false end.

(** The events of the steps and of the end of a run, as opposed to
    [GoalReceived] and [PlanGenerated]. *)
Definition is_intake (ev : AgentEvent) : bool :=
  match ev with
  | GoalReceived _ _ _ _ | PlanGenerated _ _ _ _ _ => true
  | _ => false
  end.

(** Invariants of a run. *)
Definition events_extend (evs0 : list AgentEvent) (st : State) : Prop :=
  evs0 `prefix_of` events (self st).

Definition goal_is (g u : string) (st : State) : Prop :=
  goal (self st) = g /\ user_id (self st) = u.

Definition plan_is (p : string) (steps : list PlanStep) (st : State) : Prop :=
  plan_id (self st) = p /\ plan_steps (self st) = steps.

Definition no_planner_call_since (h0 : list Call) (st : State) : Prop :=
  exists h, history st = h0 ++ h /\ Forall (fun c => is_planner_call c = false) h.

(** The warnings logged since the log had [n0] events and the warnings
    were [w0], for the threshold [max]: one for each size of the log from
    the threshold on. *)
Definition warnings_follow (max n0 : nat) (w0 : list nat) (st : State) : Prop :=
  MAX_HISTORY_SIZE (self st) = max /\
  (n0 <= length (events (self st)))%nat /\
  continue_as_new_warnings st =
    w0 ++ filter (fun n => (max <= n)%nat)
            (seq (S n0) (length (events (self st)) - n0)).

(** The warnings after one more append. *)
Definition warnings_after_append (st : State) : list nat :=
  continue_as_new_warnings st ++
  (if (MAX_HISTORY_SIZE (self st) <=? S (length (events (self st))))%nat
   then [S (length (events (self st)))] else []).

(** ** More hosts and plans *)
Module Scenario2.
Import Scenario.

(** The cache holds the Paris plan as template [T1]. *)
Definition cached_paris : CachedPlan :=
  {| cp_template_id := Some "T1"; cp_plan_id := Some "plan_c";
     cp_steps := Some paris_plan |}.

Definition host_cache_hit : Host :=
  {| check_semantic_cache := fun _ _ => Returned (Some cached_paris);
     generate_plan_with_llm := planner paris_plan;
     execute_activity := tools_ok |}.




(** The second step of the plan names no tool. *)
Definition plan_without_tool : list PlanStep :=
  [ step "step_0" "book_flight" (Some "cancel_flight") None;
    {| ps_id := Some "step_1"; ps_tool := None; ps_input := None;
       ps_compensation := None; ps_compensation_input := None |} ].

Definition host_without_tool : Host :=
  {| check_semantic_cache := cache_miss;
     generate_plan_with_llm := planner plan_without_tool;
     execute_activity := tools_ok |}.

(** The state of a run on [host] when its plan has been recorded. *)
Definition plan_recorded (host : Host) : State :=
  snd (find_plan host wid "book Paris trip" None
         (goal_recorded wid "book Paris trip" "user-1" None initial_state)).


End Scenario2.

(** * Properties *)

(** ** Strings *)
Module PyStrFacts.
Import PyStr.

Lemma append_nil_l s : "" +:+ s = s.
Proof. reflexivity. Qed.

Lemma startswith_nonempty_nil a p : startswith "" (String a p) = false.
Proof. reflexivity. Qed.

Lemma contains_cons s p c :
  contains (String c s) p = false ->
  startswith (String c s) p = false /\ contains s p = false.
Proof. simpl. intros H. apply orb_false_iff in H. exact H. Qed.

Lemma contains_false_nonempty s p : contains s p = false -> p <> "".
Proof. intros H ->. destruct s; discriminate H. Qed.

(** A pattern that does not occur is not replaced. *)
Lemma replace_from_absent s old new :
  contains s old = false -> replace_from 0 s old new = s.
Proof.
  induction s as [|c s IH]; intros H; [reflexivity|].
  apply contains_cons in H as [Hs Hc].
  cbn [replace_from]. rewrite Hs. f_equal. auto.
Qed.

(** A character foreign to the pattern, put at the end of the text,
    creates no occurrence. *)
Lemma startswith_snoc p s ch :
  contains p (String ch "") = false ->
  startswith (s +:+ String ch "") p = startswith s p.
Proof.
  revert s. induction p as [|a p IH]; intros s H; [reflexivity|].
  apply contains_cons in H as [Ha Hp].
  destruct s as [|b s]; simpl.
  - simpl in Ha. destruct (Ascii.eqb_spec ch a) as [->|Hne].
    + destruct p; discriminate Ha.
    + destruct (Ascii.eqb_spec a ch) as [->|_]; [congruence|reflexivity].
  - destruct (Ascii.eqb a b); [auto|reflexivity].
Qed.

Lemma contains_snoc p s ch :
  contains p (String ch "") = false ->
  contains s p = false ->
  contains (s +:+ String ch "") p = false.
Proof.
  intros Hch. induction s as [|b s IH]; intros H.
  - pose proof (contains_false_nonempty _ _ H) as Hp.
    destruct p as [|a p]; [congruence|].
    change ("" +:+ String ch "") with (String ch "").
    pose proof (startswith_snoc (String a p) "" ch Hch) as E.
    change ("" +:+ String ch "") with (String ch "") in E.
    simpl. simpl in E. rewrite E. reflexivity.
  - apply contains_cons in H as [Hs Hc].
    change (String b s +:+ String ch "") with (String b (s +:+ String ch "")).
    cbn [contains]. 
    change (String b (s +:+ String ch "")) with (String b s +:+ String ch "").
    rewrite (startswith_snoc _ _ _ Hch), Hs. simpl. auto.
Qed.

(** Removing the closing brace of a text that has no other. *)
Lemma replace_closing_brace s :
  contains s "}" = false -> replace (s +:+ "}") "}" "" = s.
Proof.
  unfold replace. induction s as [|b s IH]; intros H; [reflexivity|].
  apply contains_cons in H as [Hs Hc].
  change (String b s +:+ "}") with (String b (s +:+ "}")).
  cbn [replace_from].
  assert (startswith (String b (s +:+ "}")) "}" = startswith (String b s) "}") as ->.
  { reflexivity. }
  rewrite Hs. f_equal. auto.
Qed.

(** [value.replace("{result.", "").replace("}", "")] gives back the
    field name of a placeholder, for a name without closing brace and
    without the opening marker. *)
Lemma field_name_of_placeholder f :
  contains f "}" = false ->
  contains f "{result." = false ->
  replace (replace ("{result." +:+ f +:+ "}") "{result." "") "}" "" = f.
Proof.
  intros Hb Hm.
  assert (replace ("{result." +:+ f +:+ "}") "{result." "" = f +:+ "}") as ->.
  { unfold replace. simpl. rewrite !append_nil_l.
    apply replace_from_absent, contains_snoc; [reflexivity|exact Hm]. }
  apply replace_closing_brace, Hb.
Qed.

Lemma startswith_placeholder f : startswith ("{result." +:+ f +:+ "}") "{result." = true.
Proof. reflexivity. Qed.

End PyStrFacts.

(** ** Compensation input resolution *)

(** The loop of [_inject_result_values] maps every value and keeps the
    keys: the order in which the items are visited does not matter. *)
Lemma _inject_result_values_fmap (compensation_input result : dict) :
  _inject_result_values compensation_input result
  = inject_value result <$> compensation_input.
Proof.
  unfold _inject_result_values.
  apply (map_fold_weak_ind
           (fun (r m : dict) => r = inject_value result <$> m)).
  - by rewrite fmap_empty.
  - intros key v m r Hfresh ->. by rewrite fmap_insert.
Qed.

(** The example of the docstring. *)
Example inject_docstring :
  _inject_result_values
    {[ "booking_id" := VStr "{result.booking_id}" ]}
    (<["booking_id" := VStr "BK123"]> {[ "price" := VInt 500 ]})
  = {[ "booking_id" := VStr "BK123" ]}.
Proof. vm_compute. reflexivity. Qed.

Example replace_examples :
  PyStr.replace "{result.booking_id}" "{result." "" = "booking_id}" /\
  PyStr.replace "a}b}" "}" "" = "ab" /\
  PyStr.replace "aaa" "aa" "b" = "ba" /\
  PyStr.replace "abc" "" "-" = "-a-b-c-".
Proof. repeat split; reflexivity. Qed.

Lemma _inject_result_values_lookup (compensation_input result : dict) key :
  _inject_result_values compensation_input result !! key
  = inject_value result <$> compensation_input !! key.
Proof. by rewrite _inject_result_values_fmap, lookup_fmap. Qed.

Lemma inject_value_placeholder (result : dict) f :
  PyStr.contains f "}" = false ->
  PyStr.contains f "{result." = false ->
  inject_value result (VStr ("{result." +:+ f +:+ "}"))
  = default (VStr ("{result." +:+ f +:+ "}")) (result !! f).
Proof.
  intros Hb Hm. unfold inject_value.
  rewrite PyStrFacts.startswith_placeholder.
  cbv zeta. by rewrite PyStrFacts.field_name_of_placeholder.
Qed.

(** ** The monad *)

Section MonadFacts.
Context {A B : Type}.

Lemma bind_Returned (m : M A) (k : A -> M B) st a st1 :
  m st = (Returned a, st1) -> bind m k st = k a st1.
Proof. unfold bind. by intros ->. Qed.


Lemma bind_inv_Returned (m : M A) (k : A -> M B) st b st' :
  bind m k st = (Returned b, st') ->
  exists a st1, m st = (Returned a, st1) /\ k a st1 = (Returned b, st').
Proof.
  unfold bind. destruct (m st) as [[a|e] st1]; [eauto|discriminate].
Qed.

Lemma bind_inv_Raised (m : M A) (k : A -> M B) st e st' :
  bind m k st = (Raised e, st') ->
  m st = (Raised e, st') \/
  exists a st1, m st = (Returned a, st1) /\ k a st1 = (Raised e, st').
Proof.
  unfold bind. destruct (m st) as [[a|e0] st1]; intros H; [right; eauto|left; congruence].
Qed.

Lemma preserves_bind P (m : M A) (k : A -> M B) :
  preserves P m -> (forall a, preserves P (k a)) -> preserves P (bind m k).
Proof.
  intros Hm Hk st HP. unfold bind. specialize (Hm st HP).
  destruct (m st) as [[a|e] st1]; simpl in *; [by apply Hk|done].
Qed.

Lemma preserves_ret P (a : A) : preserves P (ret a).
Proof. by intros st HP. Qed.

Lemma preserves_raise P e : preserves P (@raise A e).
Proof. by intros st HP. Qed.

Lemma preserves_try_except P (m : M A) h :
  preserves P m -> (forall e, preserves P (h e)) -> preserves P (try_except m h).
Proof.
  intros Hm Hh st HP. unfold try_except. specialize (Hm st HP).
  destruct (m st) as [[a|e] st1]; simpl in *; [done|by apply Hh].
Qed.

Lemma preserves_try_except_ActivityError P (m : M A) h :
  preserves P m -> (forall e, preserves P (h e)) ->
  preserves P (try_except_ActivityError m h).
Proof.
  intros Hm Hh. apply preserves_try_except; [done|].
  intros e. destruct (is_activity_error e); [apply Hh|apply preserves_raise].
Qed.

Lemma preserves_subscript P key (field : option A) : preserves P (subscript key field).
Proof. destruct field; [apply preserves_ret|apply preserves_raise]. Qed.

End MonadFacts.

Lemma preserves_get_self P : preserves P get_self.
Proof. by intros st HP. Qed.

(** Decompose a computation along its binds, handlers and branches;
    [leaf] closes what remains. *)
Ltac preserves_with leaf :=
  lazymatch goal with
  | |- preserves _ (bind _ _) =>
      apply preserves_bind; [|intros ?]; preserves_with leaf
  | |- preserves _ (try_except_ActivityError _ _) =>
      apply preserves_try_except_ActivityError; [|intros ?]; preserves_with leaf
  | |- preserves _ (try_except _ _) =>
      apply preserves_try_except; [|intros ?]; preserves_with leaf
  | |- preserves _ (ret _) => apply preserves_ret
  | |- preserves _ (raise _) => apply preserves_raise
  | |- preserves _ (subscript _ _) => apply preserves_subscript
  | |- preserves _ get_self => apply preserves_get_self
  | |- preserves _ (match ?x with _ => _ end) => destruct x; preserves_with leaf
  | |- _ => leaf
  end.

(** ** The workflow *)

Section WorkflowFacts.

Variable host : Host.
Variable workflow_id : string.

(** *** Appending an event *)

Lemma MAX_HISTORY_SIZE_update ev w :
  MAX_HISTORY_SIZE (update_derived_state ev w) = MAX_HISTORY_SIZE w.
Proof. by destruct ev. Qed.

Lemma events_update ev w : events (update_derived_state ev w) = events w.
Proof. by destruct ev. Qed.

Lemma saga_update ev w : saga (update_derived_state ev w) = saga w.
Proof. by destruct ev. Qed.

Lemma step_results_update ev w :
  step_results (update_derived_state ev w) = step_results w.
Proof. by destruct ev. Qed.

Lemma failed_step_id_update ev w :
  failed_step_id (update_derived_state ev w) = failed_step_id w.
Proof. by destruct ev. Qed.

(** [_append_event] always returns; its whole effect in one equation. *)
Lemma _append_event_eq ev st :
  _append_event ev st =
  (Returned tt,
   {| self := update_derived_state ev (append_to_events ev (self st));
      history := history st;
      continue_as_new_warnings :=
        continue_as_new_warnings st ++
        (if (MAX_HISTORY_SIZE (self st) <=? S (length (events (self st))))%nat
         then [S (length (events (self st)))] else []) |}).
Proof.
  unfold _append_event, bind, modify_self, check_continue_as_new, set_self.
  cbn [self history continue_as_new_warnings].
  rewrite MAX_HISTORY_SIZE_update, events_update.
  cbn [append_to_events events MAX_HISTORY_SIZE].
  rewrite length_app, Nat.add_1_r.
  destruct (_ <=? _)%nat; [done|by rewrite app_nil_r].
Qed.

(** *** Rollback *)

Lemma cr_step_id_entry c o : cr_step_id (compensation_entry c o) = step_id c.
Proof. by destruct o. Qed.

(** One turn of the loop never raises: the outcome of the
    compensation, whatever it is, becomes an entry. *)
Lemma rollback_step_eq c results st :
  rollback_step host c results st =
  (Returned
     (results ++
      [compensation_entry c
         (execute_activity host (history st) (activity_name c) (input c) 15 2)]),
   {| self := self st;
      history := history st ++ [compensation_call c];
      continue_as_new_warnings := continue_as_new_warnings st |}).
Proof.
  unfold rollback_step, try_except, bind, _execute_activity, ret. simpl.
  by destruct (execute_activity host _ _ _ _ _).
Qed.

(** The loop runs the given compensations in the order given, one call
    after the other, and yields one entry for each. *)
Lemma rollback_loop_spec comps : forall results st,
  exists rs,
    rollback_loop host comps results st =
    (Returned (results ++ rs),
     {| self := self st;
        history := history st ++ (compensation_call <$> comps);
        continue_as_new_warnings := continue_as_new_warnings st |}) /\
    cr_step_id <$> rs = step_id <$> comps /\
    forall i c, comps !! i = Some c ->
      rs !! i = Some (compensation_entry c
        (execute_activity host
           (history st ++ (compensation_call <$> take i comps))
           (activity_name c) (input c) 15 2)).
Proof.
  induction comps as [|c comps IH]; intros results st.
  - exists []. simpl. rewrite !app_nil_r. split; [by destruct st|]. split; [done|].
    intros i c Hi. by rewrite lookup_nil in Hi.
  - cbn [rollback_loop].
    erewrite bind_Returned by apply rollback_step_eq.
    destruct (IH
      (results ++ [compensation_entry c
         (execute_activity host (history st) (activity_name c) (input c) 15 2)])
      {| self := self st; history := history st ++ [compensation_call c];
         continue_as_new_warnings := continue_as_new_warnings st |})
      as (rs & Heq & Hids & Hentries).
    eexists (_ :: rs). rewrite Heq. cbn [self history continue_as_new_warnings].
    split; [by rewrite <- !app_assoc|].
    split; [rewrite !fmap_cons; by rewrite cr_step_id_entry, Hids|].
    intros [|i] c' Hi.
    + injection Hi as <-. cbn [take]. rewrite fmap_nil, app_nil_r. done.
    + cbn [lookup] in Hi. rewrite lookup_cons. specialize (Hentries i c' Hi).
      cbn [history] in Hentries. rewrite Hentries.
      cbn [take]. rewrite fmap_cons. by rewrite <- app_assoc.
Qed.

(** A first rollback: the flag is set, the stack is read in reverse and
    left as it is. *)
Lemma rollback_armed st sg :
  saga (self st) = Some sg ->
  rollback_executed sg = false ->
  exists rs,
    rollback host st =
    (Returned rs,
     {| self := set_saga (Some {| compensation_stack := compensation_stack sg;
                                  rollback_executed := true |}) (self st);
        history := history st ++ (compensation_call <$> reverse (compensation_stack sg));
        continue_as_new_warnings := continue_as_new_warnings st |}) /\
    cr_step_id <$> rs = reverse (step_id <$> compensation_stack sg) /\
    forall i c, reverse (compensation_stack sg) !! i = Some c ->
      rs !! i = Some (compensation_entry c
        (execute_activity host
           (history st ++ (compensation_call <$> take i (reverse (compensation_stack sg))))
           (activity_name c) (input c) 15 2)).
Proof.
  intros Hsg Harmed.
  unfold rollback, get_saga, bind, get_self, put_saga, modify_self, ret.
  rewrite Hsg, Harmed.
  destruct (compensation_stack sg) as [|c0 stack] eqn:Hstack.
  - exists []. rewrite reverse_nil. simpl. rewrite app_nil_r.
    split; [done|]. split; [done|]. intros i c Hi. by rewrite lookup_nil in Hi.
  - destruct (rollback_loop_spec (reverse (c0 :: stack)) []
                (set_self (set_saga (Some {| compensation_stack := c0 :: stack;
                                             rollback_executed := true |})) st))
      as (rs & Heq & Hids & Hentries).
    exists rs. rewrite Heq. split; [done|].
    split; [by rewrite Hids, fmap_reverse|]. exact Hentries.
Qed.

(** A rollback after the first one does nothing. *)
Lemma rollback_done st sg :
  saga (self st) = Some sg ->
  rollback_executed sg = true ->
  rollback host st = (Returned [], st).
Proof.
  intros Hsg Hdone.
  unfold rollback, get_saga, bind, get_self, ret. by rewrite Hsg, Hdone.
Qed.

(** *** Executing a step with its compensation *)

Lemma truthy_str_nonempty c : c <> "" -> truthy_str (Some c) = Some c.
Proof. by destruct c. Qed.

Lemma truthy_str_inv comp c : truthy_str comp = Some c -> comp = Some c /\ c <> "".
Proof. destruct comp as [[|a s]|]; simpl; intros H; by simplify_eq. Qed.

Lemma execute_with_compensation_Raised name inp comp ci sid st sg e :
  saga (self st) = Some sg ->
  execute_activity host (history st) name inp 30 3 = Raised e ->
  execute_with_compensation host name inp comp ci sid st =
  (Raised e,
   {| self := self st;
      history := history st ++ [ExecuteActivity name inp 30 3];
      continue_as_new_warnings := continue_as_new_warnings st |}).
Proof.
  intros Hsg Hhost. unfold execute_with_compensation, get_saga.
  cbv [bind _execute_activity get_self ret negb].
  by rewrite Hsg, Hhost.
Qed.

Lemma execute_with_compensation_plain name inp comp ci sid st sg result :
  saga (self st) = Some sg ->
  execute_activity host (history st) name inp 30 3 = Returned result ->
  truthy_str comp = None ->
  execute_with_compensation host name inp comp ci sid st =
  (Returned result,
   {| self := self st;
      history := history st ++ [ExecuteActivity name inp 30 3];
      continue_as_new_warnings := continue_as_new_warnings st |}).
Proof.
  intros Hsg Hhost Hcomp. unfold execute_with_compensation, get_saga.
  cbv [bind _execute_activity get_self ret negb].
  by rewrite Hsg, Hhost, Hcomp.
Qed.

(** Without a saga nothing is executed. *)
Lemma execute_with_compensation_no_saga name inp comp ci sid st :
  saga (self st) = None ->
  exists e, execute_with_compensation host name inp comp ci sid st = (Raised e, st).
Proof.
  intros Hsg. unfold execute_with_compensation, get_saga.
  cbv [bind get_self raise]. rewrite Hsg. eauto.
Qed.

Lemma execute_with_compensation_registered name inp comp ci sid st result c sg :
  execute_activity host (history st) name inp 30 3 = Returned result ->
  truthy_str comp = Some c ->
  saga (self st) = Some sg ->
  execute_with_compensation host name inp comp ci sid st =
  (Returned result,
   {| self :=
        set_saga
          (Some {| compensation_stack :=
                     compensation_stack sg ++
                     [ {| activity_name := c;
                          input := _inject_result_values (default ∅ ci) result;
                          step_id := sid |} ];
                   rollback_executed := rollback_executed sg |})
          (self st);
      history := history st ++ [ExecuteActivity name inp 30 3];
      continue_as_new_warnings := continue_as_new_warnings st |}).
Proof.
  intros Hhost Hcomp Hsg.
  unfold execute_with_compensation, get_saga, put_saga.
  cbv [bind _execute_activity get_self modify_self ret negb].
  rewrite Hsg, Hhost, Hcomp. cbn [self]. by rewrite Hsg.
Qed.

(** Whatever happens, the entries already on the stack stay where they
    are: [execute_with_compensation] can only add one at the end. *)
Lemma execute_with_compensation_stack_grows name inp comp ci sid st sg :
  saga (self st) = Some sg ->
  exists sg',
    saga (self (snd (execute_with_compensation host name inp comp ci sid st))) = Some sg' /\
    compensation_stack sg `prefix_of` compensation_stack sg' /\
    rollback_executed sg' = rollback_executed sg.
Proof.
  intros Hsg.
  destruct (execute_activity host (history st) name inp 30 3) as [result|e] eqn:Hhost.
  - destruct (truthy_str comp) as [c|] eqn:Hcomp.
    + erewrite execute_with_compensation_registered by done.
      eexists. split; [done|]. split; [by apply prefix_app_r|done].
    + erewrite execute_with_compensation_plain by done. by exists sg.
  - erewrite execute_with_compensation_Raised by done. by exists sg.
Qed.

(** C5: [rollback] is idempotent.  On a saga on which [rollback] has
    run, a second [rollback] returns the empty list and leaves the whole
    state as it is: no activity is executed (the history of the calls
    made to the host does not grow) and the saga is not touched. *)
Theorem rollback_idempotent st sg :
  saga (self st) = Some sg ->
  let st1 := snd (rollback host st) in
  rollback host st1 = (Returned [], st1) /\
  history (snd (rollback host st1)) = history st1.
Proof.
  intros Hsg st1.
  assert (rollback host st1 = (Returned [], st1)) as Heq.
  { subst st1. destruct (rollback_executed sg) eqn:Hflag.
    - rewrite (rollback_done st sg Hsg Hflag). by apply rollback_done with sg.
    - destruct (rollback_armed st sg Hsg Hflag) as (rs & -> & _).
      by eapply rollback_done. }
  by rewrite Heq.
Qed.

(** C6: a step executed through [execute_with_compensation], on an
    existing saga.  If the activity fails, the same failure is raised
    to the caller and the saga, hence its stack, is unchanged.  If the
    activity succeeds and a compensation activity is named, the result
    is returned and the state it is returned with already holds the
    compensation, resolved against that result, on top of the stack. *)
Theorem execute_with_compensation_contract name inp comp ci sid st sg :
  saga (self st) = Some sg ->
  let run_step := execute_with_compensation host name inp comp ci sid st in
  (forall e,
     execute_activity host (history st) name inp 30 3 = Raised e ->
     fst run_step = Raised e /\ saga (self (snd run_step)) = Some sg) /\
  (forall result c,
     execute_activity host (history st) name inp 30 3 = Returned result ->
     comp = Some c -> c <> "" ->
     fst run_step = Returned result /\
     saga (self (snd run_step)) =
     Some {| compensation_stack :=
               compensation_stack sg ++
               [ {| activity_name := c;
                    input := _inject_result_values (default ∅ ci) result;
                    step_id := sid |} ];
             rollback_executed := rollback_executed sg |}).
Proof.
  intros Hsg run_step. subst run_step. split.
  - intros e Hhost.
    by rewrite (execute_with_compensation_Raised _ _ _ _ _ _ _ _ Hsg Hhost).
  - intros result c Hhost -> Hc.
    by rewrite (execute_with_compensation_registered _ _ _ _ _ _ _ _ _
                  Hhost (truthy_str_nonempty c Hc) Hsg).
Qed.

(** C7, as the code has it: a compensation input value
    [{result.fieldX}], where [fieldX] holds no closing brace and no
    ["{result."], is resolved when the compensation is registered,
    against the result of the step just executed: to the result's
    [fieldX] when the result has it, to the placeholder string itself
    when it has not.  The resolved input is stored in the
    [CompensationStep]: the execution of any later step leaves that
    entry at its place on the stack, with the same input. *)
Theorem placeholder_resolved_at_registration
    name inp c ci sid st sg result key fieldX :
  saga (self st) = Some sg ->
  execute_activity host (history st) name inp 30 3 = Returned result ->
  c <> "" ->
  ci !! key = Some (VStr ("{result." +:+ fieldX +:+ "}")) ->
  PyStr.contains fieldX "}" = false ->
  PyStr.contains fieldX "{result." = false ->
  let st1 := snd (execute_with_compensation host name inp (Some c) (Some ci) sid st) in
  exists entry sg1,
    saga (self st1) = Some sg1 /\
    compensation_stack sg1 = compensation_stack sg ++ [entry] /\
    activity_name entry = c /\ step_id entry = sid /\
    input entry = _inject_result_values ci result /\
    input entry !! key =
      Some (default (VStr ("{result." +:+ fieldX +:+ "}")) (result !! fieldX)) /\
    forall name' inp' comp' ci' sid',
      let st2 := snd (execute_with_compensation host name' inp' comp' ci' sid' st1) in
      exists sg2,
        saga (self st2) = Some sg2 /\
        compensation_stack sg2 !! length (compensation_stack sg) = Some entry.
Proof.
  intros Hsg Hhost Hc Hkey Hb Hm st1. subst st1.
  rewrite (execute_with_compensation_registered _ _ _ _ _ _ _ _ _
             Hhost (truthy_str_nonempty c Hc) Hsg).
  cbn [snd self set_saga saga]. change (default ∅ (Some ci)) with ci.
  eexists _, _. split; [done|]. cbn [compensation_stack].
  split; [done|]. cbn [activity_name step_id input].
  do 3 (split; [done|]). split.
  - rewrite _inject_result_values_lookup, Hkey. cbn [fmap option_fmap option_map].
    by rewrite inject_value_placeholder.
  - intros name' inp' comp' ci' sid'.
    match goal with
    | |- context [execute_with_compensation host name' inp' comp' ci' sid' ?s] =>
        destruct (execute_with_compensation_stack_grows
                    name' inp' comp' ci' sid' s _ eq_refl)
          as (sg2 & Hsg2 & [extra Hstack] & _)
    end.
    exists sg2. split; [exact Hsg2|]. rewrite Hstack. cbn [compensation_stack].
    rewrite <- app_assoc. by apply list_lookup_middle.
Qed.

End WorkflowFacts.

(** ** Invariants of a run *)

Section RunInvariants.

Variable host : Host.
Variable workflow_id : string.

(** What the primitive computations do to the state. *)
Ltac primitive :=
  let st := fresh "st" in
  let HP := fresh "HP" in
  intros st HP;
  rewrite ?_append_event_eq;
  cbv [_execute_activity call_check_semantic_cache _generate_plan_with_llm
       modify_self set_self snd] in *;
  cbn [self history continue_as_new_warnings] in *.

(** *** The saga stays armed until the rollback *)

Lemma armed_append ev : preserves saga_armed (_append_event ev).
Proof.
  primitive. destruct HP as (sg & Hsg & Hflag). exists sg.
  cbn [self]. by rewrite saga_update.
Qed.

Lemma armed_execute_with_compensation name inp comp ci sid :
  preserves saga_armed (execute_with_compensation host name inp comp ci sid).
Proof.
  intros st (sg & Hsg & Hflag).
  destruct (execute_with_compensation_stack_grows host name inp comp ci sid st sg Hsg)
    as (sg' & Hsg' & _ & Hflag').
  exists sg'. split; [done|congruence].
Qed.

Lemma armed_set_step_result sid r :
  preserves saga_armed (modify_self (set_step_result sid r)).
Proof. by primitive. Qed.

Lemma armed_set_failed_step_id sid :
  preserves saga_armed (modify_self (set_failed_step_id sid)).
Proof. by primitive. Qed.

Lemma armed_cache g : preserves saga_armed (call_check_semantic_cache host g).
Proof. by primitive. Qed.

Lemma armed_planner g c : preserves saga_armed (_generate_plan_with_llm host g c).
Proof. by primitive. Qed.

Create HintDb armed.
Hint Resolve armed_append armed_execute_with_compensation armed_set_step_result
  armed_set_failed_step_id armed_cache armed_planner : armed.

Lemma armed_execute_step idx step :
  preserves saga_armed (execute_step host workflow_id idx step).
Proof. unfold execute_step. preserves_with ltac:(auto with armed). Qed.

Lemma armed_execute_steps steps : forall idx,
  preserves saga_armed (execute_steps host workflow_id idx steps).
Proof.
  induction steps as [|step steps IH]; intros idx; cbn [execute_steps].
  - apply preserves_ret.
  - apply preserves_bind; [apply armed_execute_step|intros _; apply IH].
Qed.

Hint Resolve armed_execute_steps : armed.

Lemma armed_run_try g u context :
  preserves saga_armed (run_try host workflow_id g u context).
Proof.
  unfold run_try, _check_semantic_cache, _execute_plan, _handle_success.
  preserves_with ltac:(auto with armed).
Qed.

(** *** Failure handling *)

Lemma with_new_saga_armed st : saga_armed (with_new_saga st).
Proof. by eexists. Qed.

Lemma run_eq g u context st :
  run host workflow_id g u context st =
  try_except (run_try host workflow_id g u context)
             (run_except host workflow_id) (with_new_saga st).
Proof. reflexivity. Qed.

(** On an armed saga [_handle_failure] returns: it rolls back, appends
    [WorkflowFailed] and hands out the failure result. *)
Lemma _handle_failure_armed msg st sg :
  saga (self st) = Some sg ->
  rollback_executed sg = false ->
  exists rs,
    let w :=
      set_saga (Some {| compensation_stack := compensation_stack sg;
                        rollback_executed := true |}) (self st) in
    let failed :=
      WorkflowFailed workflow_id (plan_id w) (failed_step_id w) msg true rs in
    _handle_failure host workflow_id msg st =
    (Returned
       {| fr_status := "failed"; fr_plan_id := plan_id w;
          fr_failed_step_id := failed_step_id w; fr_error := msg;
          fr_compensation_executed := true; fr_compensation_results := rs |},
     {| self := append_to_events failed w;
        history := history st ++ (compensation_call <$> reverse (compensation_stack sg));
        continue_as_new_warnings :=
          continue_as_new_warnings st ++
          (if (MAX_HISTORY_SIZE w <=? S (length (events w)))%nat
           then [S (length (events w))] else []) |}) /\
    cr_step_id <$> rs = reverse (step_id <$> compensation_stack sg) /\
    forall i c, reverse (compensation_stack sg) !! i = Some c ->
      rs !! i = Some (compensation_entry c
        (execute_activity host
           (history st ++ (compensation_call <$> take i (reverse (compensation_stack sg))))
           (activity_name c) (input c) 15 2)).
Proof.
  intros Hsg Hflag.
  destruct (rollback_armed host st sg Hsg Hflag) as (rs & Heq & Hids & Hentries).
  exists rs. split; [|by split].
  unfold _handle_failure.
  erewrite bind_Returned by exact Heq.
  cbv [bind get_self]. cbn [self]. by rewrite _append_event_eq.
Qed.

(** What a failed [try] block leads to. *)
Lemma run_failed g u context st e st1 :
  run_try host workflow_id g u context (with_new_saga st) = (Raised e, st1) ->
  exists sg rs,
    saga (self st1) = Some sg /\
    rollback_executed sg = false /\
    let w :=
      set_saga (Some {| compensation_stack := compensation_stack sg;
                        rollback_executed := true |}) (self st1) in
    let details :=
      {| fr_status := "failed"; fr_plan_id := plan_id w;
         fr_failed_step_id := failed_step_id w; fr_error := str e;
         fr_compensation_executed := true; fr_compensation_results := rs |} in
    run host workflow_id g u context st =
    (Raised (ApplicationError ("Workflow failed: " +:+ str e) true details),
     {| self :=
          append_to_events
            (WorkflowFailed workflow_id (plan_id w) (failed_step_id w) (str e) true rs) w;
        history := history st1 ++ (compensation_call <$> reverse (compensation_stack sg));
        continue_as_new_warnings :=
          continue_as_new_warnings st1 ++
          (if (MAX_HISTORY_SIZE w <=? S (length (events w)))%nat
           then [S (length (events w))] else []) |}) /\
    cr_step_id <$> rs = reverse (step_id <$> compensation_stack sg) /\
    forall i c, reverse (compensation_stack sg) !! i = Some c ->
      rs !! i = Some (compensation_entry c
        (execute_activity host
           (history st1 ++ (compensation_call <$> take i (reverse (compensation_stack sg))))
           (activity_name c) (input c) 15 2)).
Proof.
  intros Htry.
  pose proof (armed_run_try g u context _ (with_new_saga_armed st)) as Harmed.
  rewrite Htry in Harmed. destruct Harmed as (sg & Hsg & Hflag).
  destruct (_handle_failure_armed (str e) st1 sg Hsg Hflag) as (rs & Heq & Hids & Hentries).
  exists sg, rs. do 2 (split; [done|]). split; [|by split].
  rewrite run_eq. unfold try_except. rewrite Htry.
  unfold run_except. by erewrite bind_Returned by exact Heq.
Qed.



(** C3, as the code has it: for every failed run, after [rollback] the
    compensation stack holds exactly the entries it held before, and
    the saga is marked as rolled back. *)
Theorem failed_run_stack_kept g u context st e st1 sg :
  run_try host workflow_id g u context (with_new_saga st) = (Raised e, st1) ->
  saga (self st1) = Some sg ->
  saga (self (snd (run host workflow_id g u context st))) =
  Some {| compensation_stack := compensation_stack sg; rollback_executed := true |}.
Proof.
  intros Htry Hsg.
  destruct (run_failed g u context st e st1 Htry)
    as (sg' & rs & Hsg' & _ & Hrun & _).
  rewrite Hrun. cbn [snd self append_to_events saga set_saga]. congruence.
Qed.


End RunInvariants.

(** ** Successful runs *)

Section SuccessfulRuns.

Variable host : Host.
Variable workflow_id : string.

Lemma plan_steps_update_tool_call w c t i s a :
  plan_steps (update_derived_state (ToolCallRequested c t i s a) w) = plan_steps w.
Proof. reflexivity. Qed.

(** A step that returns has stored one result under its id and has
    left the plan alone. *)
Lemma execute_step_Returned idx step st st' :
  execute_step host workflow_id idx step st = (Returned tt, st') ->
  exists result,
    step_results (self st') = <[step_id_of idx step := result]> (step_results (self st)) /\
    plan_steps (self st') = plan_steps (self st) /\
    plan_id (self st') = plan_id (self st).
Proof.
  unfold execute_step, execute_with_compensation, try_except_ActivityError,
    try_except, subscript, get_saga, put_saga.
  cbv [bind ret raise get_self modify_self _execute_activity negb].
  intros H.
  repeat first
    [ rewrite _append_event_eq in *
    | progress cbn [fst snd self history continue_as_new_warnings] in *
    | case_match ];
    simplify_eq; cbn; eauto.
Qed.

Lemma length_step_ids steps : forall idx, length (step_ids idx steps) = length steps.
Proof. induction steps as [|s steps IH]; intros idx; cbn; [done|by rewrite IH]. Qed.

(** A plan that is executed to its end has stored a result under the
    id of each of its steps. *)
Lemma execute_steps_Returned steps : forall idx st st',
  execute_steps host workflow_id idx steps st = (Returned tt, st') ->
  dom (step_results (self st')) =
    dom (step_results (self st)) ∪ list_to_set (step_ids idx steps) /\
  plan_steps (self st') = plan_steps (self st) /\
  plan_id (self st') = plan_id (self st).
Proof.
  induction steps as [|step steps IH]; intros idx st st' H; cbn in H.
  - injection H as <-. cbn. split; [set_solver|done].
  - apply bind_inv_Returned in H as ([] & st1 & Hstep & Hrest).
    apply execute_step_Returned in Hstep as (result & Hres & Hsteps & Hid).
    apply IH in Hrest as (Hdom & Hsteps' & Hid').
    rewrite Hdom, Hres, dom_insert_L. cbn [step_ids list_to_set].
    split; [set_solver|]. split; congruence.
Qed.

(** Nothing is stored in [step_results] before the plan is executed. *)
Lemma no_results_append ev : preserves no_results (_append_event ev).
Proof.
  intros st HP. rewrite _append_event_eq. unfold no_results in *.
  cbn [snd self]. by rewrite step_results_update.
Qed.

Lemma no_results_cache g : preserves no_results (call_check_semantic_cache host g).
Proof. by intros st HP. Qed.

Lemma no_results_planner g c : preserves no_results (_generate_plan_with_llm host g c).
Proof. by intros st HP. Qed.

(** The run up to the end of [_execute_plan]. *)
Lemma run_try_Returned g u context st r st' :
  no_results st ->
  run_try host workflow_id g u context st = (Returned r, st') ->
  dom (step_results (self st')) = list_to_set (step_ids 0 (plan_steps (self st'))) /\
  r = {| sr_status := "completed"; sr_plan_id := plan_id (self st');
         sr_steps_executed := length (plan_steps (self st'));
         sr_results := step_results (self st') |} /\
  last (events (self st')) =
    Some (WorkflowCompleted workflow_id (plan_id (self st'))
            (length (plan_steps (self st'))) r).
Proof.
  intros Hnone H. unfold run_try in H.
  apply bind_inv_Returned in H as ([] & st1 & Hgoal & H).
  apply bind_inv_Returned in H as (cached & st2 & Hcache & H).
  apply bind_inv_Returned in H as ([] & st3 & Hplan & H).
  apply bind_inv_Returned in H as ([] & st4 & Hexec & H).
  assert (no_results st3) as Hnone3.
  { pose proof (no_results_append (GoalReceived workflow_id g u context) _ Hnone) as H1. rewrite Hgoal in H1. cbn [snd] in H1.
    assert (preserves no_results (_check_semantic_cache host g)) as Pc.
    { unfold _check_semantic_cache.
      preserves_with ltac:(auto using no_results_cache). }
    pose proof (Pc _ H1) as H2. rewrite Hcache in H2. cbn [snd] in H2.
    revert Hplan. generalize st3.
    assert (forall A (m : M A),
               preserves no_results m ->
               forall a s, m st2 = (Returned a, s) -> no_results s) as Hm.
    { intros A m Pm a s E. specialize (Pm _ H2). by rewrite E in Pm. }
    intros s. apply Hm.
    preserves_with ltac:(auto using no_results_append, no_results_planner). }
  unfold _execute_plan in Hexec. cbv [bind get_self] in Hexec.
  apply execute_steps_Returned in Hexec as (Hdom & Hsteps & Hid).
  unfold _handle_success in H. cbv [bind get_self ret] in H.
  rewrite _append_event_eq in H. injection H as <- <-.
  cbn [self events append_to_events update_derived_state plan_steps plan_id
         step_results].
  rewrite last_snoc. split; [|done].
  rewrite Hdom, Hsteps, Hnone3. set_solver.
Qed.

Lemma run_Returned_inv g u context st r st' :
  run host workflow_id g u context st = (Returned r, st') ->
  run_try host workflow_id g u context (with_new_saga st) = (Returned r, st').
Proof.
  rewrite run_eq. unfold try_except.
  destruct (run_try _ _ _ _ _ _) as [[r0|e0] st1]; [done|].
  unfold run_except, bind.
  destruct (_handle_failure _ _ _ _) as [[d|e] st2]; discriminate.
Qed.

(** C8, as the code has it: for every successful run of a fresh
    workflow whose plan steps are executed under pairwise distinct ids,
    the step-results mapping has as many entries as the plan has steps,
    and [WorkflowCompleted] is the last event of the log. *)
Theorem successful_run_results_and_last_event g u context st r st' :
  step_results (self st) = ∅ ->
  run host workflow_id g u context st = (Returned r, st') ->
  NoDup (step_ids 0 (plan_steps (self st'))) ->
  size (step_results (self st')) = length (plan_steps (self st')) /\
  exists p n, last (events (self st')) = Some (WorkflowCompleted workflow_id p n r).
Proof.
  intros Hnone Hrun Hids.
  apply run_Returned_inv in Hrun.
  apply run_try_Returned in Hrun as (Hdom & _ & Hlast); [|done].
  split; [|eauto].
  rewrite <- size_dom, Hdom, size_list_to_set by done.
  apply length_step_ids.
Qed.

End SuccessfulRuns.

(** ** Cache failures *)

Section CacheFailure.

Variable host : Host.
Variable workflow_id : string.

Lemma bind_assoc {A B C} (m : M A) (k1 : A -> M B) (k2 : B -> M C) st :
  bind (bind m k1) k2 st = bind m (fun a => bind (k1 a) k2) st.
Proof. unfold bind. by destruct (m st) as [[a|e] st1]. Qed.

Lemma bind_ext_l {A B} (m m' : M A) (k : A -> M B) st :
  m st = m' st -> bind m k st = bind m' k st.
Proof. unfold bind. by intros ->. Qed.

(** An [ActivityError] of the lookup is caught: the lookup returns
    [None]. *)
Lemma _check_semantic_cache_ActivityError g st msg :
  check_semantic_cache host (history st) g = Raised (ActivityError msg) ->
  _check_semantic_cache host g st =
  (Returned None,
   {| self := self st; history := history st ++ [CheckSemanticCache g];
      continue_as_new_warnings := continue_as_new_warnings st |}).
Proof.
  intros Hhost.
  unfold _check_semantic_cache, try_except_ActivityError, try_except, bind,
    call_check_semantic_cache.
  by rewrite Hhost.
Qed.

Lemma _check_semantic_cache_miss g st :
  _check_semantic_cache (with_cache_miss host) g st =
  (Returned None,
   {| self := self st; history := history st ++ [CheckSemanticCache g];
      continue_as_new_warnings := continue_as_new_warnings st |}).
Proof. reflexivity. Qed.

(** *** The history of calls only grows *)

Section Prefix.
Variable h0 : list Call.

Lemma extends_append ev : preserves (history_extends h0) (_append_event ev).
Proof. intros st HP. by rewrite _append_event_eq. Qed.

Lemma extends_modify f : preserves (history_extends h0) (modify_self f).
Proof. by intros st HP. Qed.

Lemma extends_activity name inp sid b :
  preserves (history_extends h0) (_execute_activity host name inp sid b).
Proof. intros st HP. by apply prefix_app_r. Qed.

Lemma extends_cache g : preserves (history_extends h0) (call_check_semantic_cache host g).
Proof. intros st HP. by apply prefix_app_r. Qed.

Lemma extends_planner g c : preserves (history_extends h0) (_generate_plan_with_llm host g c).
Proof. intros st HP. by apply prefix_app_r. Qed.

Create HintDb extends.
Hint Resolve extends_append extends_modify extends_activity extends_cache
  extends_planner : extends.

Lemma extends_execute_steps steps : forall idx,
  preserves (history_extends h0) (execute_steps host workflow_id idx steps).
Proof.
  induction steps as [|step steps IH]; intros idx; cbn [execute_steps].
  - apply preserves_ret.
  - apply preserves_bind; [|intros _; apply IH].
    unfold execute_step, execute_with_compensation, get_saga, put_saga.
    preserves_with ltac:(auto with extends).
Qed.

Lemma extends_rollback_loop comps : forall results,
  preserves (history_extends h0) (rollback_loop host comps results).
Proof.
  induction comps as [|c comps IH]; intros results; cbn [rollback_loop].
  - apply preserves_ret.
  - apply preserves_bind; [|intros ?; apply IH].
    unfold rollback_step. preserves_with ltac:(auto with extends).
Qed.

Hint Resolve extends_execute_steps extends_rollback_loop : extends.

Lemma extends_run_except e : preserves (history_extends h0) (run_except host workflow_id e).
Proof.
  unfold run_except, _handle_failure, rollback, get_saga, put_saga.
  preserves_with ltac:(auto with extends).
Qed.

(** The run from the planning on. *)
Lemma extends_after_planning (plan_block : M unit) :
  preserves (history_extends h0) plan_block ->
  preserves (history_extends h0)
    (try_except
       (bind plan_block (fun _ =>
          bind (_execute_plan host workflow_id)
               (fun _ => _handle_success workflow_id)))
       (run_except host workflow_id)).
Proof.
  intros Hblock. unfold _execute_plan, _handle_success.
  preserves_with ltac:(auto using extends_run_except with extends).
Qed.

End Prefix.

(** C9: if the cache lookup of a run raises an activity error, the
    lookup returns no plan, the run goes on exactly as the run in
    which the lookup is a miss, and the next call it makes to the host
    is the plan generation. *)
Theorem cache_error_is_a_miss g u context st msg :
  check_semantic_cache host (history st) g = Raised (ActivityError msg) ->
  fst (_check_semantic_cache host g st) = Returned None /\
  run host workflow_id g u context st
    = run (with_cache_miss host) workflow_id g u context st /\
  history_extends
    (history st ++ [CheckSemanticCache g; GeneratePlanWithLlm g (default ∅ context)])
    (snd (run host workflow_id g u context st)).
Proof.
  intros Hhost. split; [by rewrite (_check_semantic_cache_ActivityError _ _ _ Hhost)|].
  assert (forall K : option CachedPlan -> M SuccessResult,
    bind (_append_event (GoalReceived workflow_id g u context))
         (fun _ => bind (_check_semantic_cache host g) K) (with_new_saga st)
    = K None
        {| self := update_derived_state (GoalReceived workflow_id g u context)
                     (append_to_events (GoalReceived workflow_id g u context)
                        (self (with_new_saga st)));
           history := history st ++ [CheckSemanticCache g];
           continue_as_new_warnings :=
             continue_as_new_warnings st ++
             (if (MAX_HISTORY_SIZE (self st) <=? S (length (events (self st))))%nat
              then [S (length (events (self st)))] else []) |}) as Hprefix.
  { intros K. erewrite bind_Returned by apply _append_event_eq.
    erewrite bind_Returned;
      [done|apply _check_semantic_cache_ActivityError with msg; exact Hhost]. }
  split.
  - rewrite !run_eq. unfold try_except, run_try.
    rewrite Hprefix.
    erewrite (bind_Returned (_append_event _)) by apply _append_event_eq.
    erewrite (bind_Returned (_check_semantic_cache (with_cache_miss host) g))
      by apply _check_semantic_cache_miss.
    reflexivity.
  - rewrite run_eq. unfold try_except at 1. unfold run_try. rewrite Hprefix.
    cbn [truthy_plan].
    match goal with
    | |- history_extends ?h (snd match bind (bind ?m ?k1) ?k2 ?s with _ => _ end) =>
        change (history_extends h
                  (snd (try_except (bind (bind m k1) k2)
                          (run_except host workflow_id) s)));
        set (st2 := s)
    end.
    unfold try_except. rewrite bind_assoc. unfold bind at 1.
    unfold _generate_plan_with_llm at 1.
    set (h := history st ++ _).
    set (st3 := {| self := self st2; history := history st2 ++ _;
                   continue_as_new_warnings := _ |}).
    assert (history_extends h st3) as H3.
    { subst h st3 st2. unfold history_extends. cbn [history].
      rewrite <- app_assoc. reflexivity. }
    destruct (generate_plan_with_llm host _ _ _) as [plan|e].
    + match goal with
      | |- history_extends h (snd match ?m st3 with _ => _ end) =>
          change (history_extends h
                    (snd (try_except m (run_except host workflow_id) st3)))
      end.
      revert H3. generalize st3.
      match goal with
      | |- forall s, _ -> history_extends h (snd (try_except (bind ?b ?k) _ s)) =>
          apply (extends_after_planning h b)
      end.
      preserves_with ltac:(auto using extends_append).
    + by apply extends_run_except.
Qed.

End CacheFailure.

(** ** The event log and the derived state *)

Section EventLog.

Variable host : Host.
Variable workflow_id : string.

Lemma replay_snoc evs ev :
  replay (evs ++ [ev]) = update_derived_state ev (replay evs).
Proof. unfold replay. by rewrite fold_left_app. Qed.

(** The four fields that [_append_event] updates follow the replay of
    the log. *)
Lemma derived_append ev : preserves derived_from_events (_append_event ev).
Proof.
  intros st (Hg & Hu & Hp & Hs). rewrite _append_event_eq.
  unfold derived_from_events. cbn [snd self]. cbv zeta.
  rewrite events_update. cbn [append_to_events events]. rewrite replay_snoc.
  destruct ev; cbn; auto.
Qed.

Lemma derived_modify_saga sg : preserves derived_from_events (modify_self (set_saga sg)).
Proof. by intros st HP. Qed.

Lemma derived_set_step_result sid r :
  preserves derived_from_events (modify_self (set_step_result sid r)).
Proof. by intros st HP. Qed.

Lemma derived_set_failed_step_id sid :
  preserves derived_from_events (modify_self (set_failed_step_id sid)).
Proof. by intros st HP. Qed.

Lemma derived_activity name inp sid b :
  preserves derived_from_events (_execute_activity host name inp sid b).
Proof. by intros st HP. Qed.

Lemma derived_cache g : preserves derived_from_events (call_check_semantic_cache host g).
Proof. by intros st HP. Qed.

Lemma derived_planner g c : preserves derived_from_events (_generate_plan_with_llm host g c).
Proof. by intros st HP. Qed.

Create HintDb derived.
Hint Resolve derived_append derived_modify_saga derived_set_step_result
  derived_set_failed_step_id derived_activity derived_cache derived_planner : derived.

Lemma derived_execute_steps steps : forall idx,
  preserves derived_from_events (execute_steps host workflow_id idx steps).
Proof.
  induction steps as [|step steps IH]; intros idx; cbn [execute_steps].
  - apply preserves_ret.
  - apply preserves_bind; [|intros _; apply IH].
    unfold execute_step, execute_with_compensation, get_saga, put_saga.
    preserves_with ltac:(auto with derived).
Qed.

Lemma derived_rollback_loop comps : forall results,
  preserves derived_from_events (rollback_loop host comps results).
Proof.
  induction comps as [|c comps IH]; intros results; cbn [rollback_loop].
  - apply preserves_ret.
  - apply preserves_bind; [|intros ?; apply IH].
    unfold rollback_step. preserves_with ltac:(auto with derived).
Qed.

Hint Resolve derived_execute_steps derived_rollback_loop : derived.

(** Throughout a run, [goal], [user_id], [plan_id] and [plan_steps] are
    the fold of the state update over the event log. *)
Lemma derived_run g u context :
  preserves derived_from_events (run host workflow_id g u context).
Proof.
  unfold run, run_try, run_except, _check_semantic_cache, _execute_plan,
    _handle_success, _handle_failure, rollback, get_saga, put_saga.
  preserves_with ltac:(auto with derived).
Qed.

Lemma derived_initial_state : derived_from_events initial_state.
Proof. by repeat split. Qed.

(** The state update of [_append_event] has no case for the tool
    results: in a replay, [step_results] and [failed_step_id] keep
    their initial values. *)
Lemma replay_step_results evs :
  step_results (replay evs) = ∅ /\ failed_step_id (replay evs) = "".
Proof.
  induction evs as [|ev evs IH] using rev_ind; [done|].
  rewrite replay_snoc, step_results_update, failed_step_id_update. exact IH.
Qed.

(** C4, as the code has it: an append logs the continue-as-new warning
    exactly when it leaves at least [MAX_HISTORY_SIZE] events in the
    log.  The log grows by one event at each append and the threshold
    does not change, so the warning is logged at the append that
    reaches the threshold and at every append after it. *)
Theorem continue_as_new_warning_at_every_append ev st :
  let st' := snd (_append_event ev st) in
  let n := length (events (self st')) in
  n = S (length (events (self st))) /\
  MAX_HISTORY_SIZE (self st') = MAX_HISTORY_SIZE (self st) /\
  continue_as_new_warnings st' =
    continue_as_new_warnings st ++
    (if (MAX_HISTORY_SIZE (self st) <=? n)%nat then [n] else []).
Proof.
  rewrite _append_event_eq. cbn [snd self continue_as_new_warnings]. cbv zeta.
  rewrite events_update, MAX_HISTORY_SIZE_update.
  cbn [append_to_events events MAX_HISTORY_SIZE].
  by rewrite length_app, Nat.add_1_r.
Qed.

End EventLog.

(** ** Concrete runs *)

Import Scenario.


Lemma failed_run_stack_kept_witness :
  run_try host_paris_hotel_fails wid "book Paris trip" "user-1" None
    (with_new_saga initial_state)
  = (Raised (ActivityError "hotel unavailable"), paris_failed_try) /\
  saga (self paris_failed_try) = Some paris_saga /\
  saga (self (snd (run host_paris_hotel_fails wid "book Paris trip" "user-1" None
                     initial_state))) =
  Some {| compensation_stack := compensation_stack paris_saga;
          rollback_executed := true |}.
Proof.
  split; [vm_compute; reflexivity|]. split; [vm_compute; reflexivity|].
  apply (failed_run_stack_kept host_paris_hotel_fails wid "book Paris trip"
           "user-1" None initial_state (ActivityError "hotel unavailable")
           paris_failed_try paris_saga); vm_compute; reflexivity.
Defined.

(** C3 fails as stated: after the rollback of the failed Paris run the
    stack still holds the cancellation of the flight. *)
Lemma failed_run_stack_not_emptied :
  exists e st sg,
    go host_paris_hotel_fails = (Raised e, st) /\
    saga (self st) = Some sg /\
    rollback_executed sg = true /\
    compensation_stack sg = compensation_stack paris_saga /\
    compensation_stack sg <> [].
Proof.
  eexists _, _, {| compensation_stack := compensation_stack paris_saga;
                   rollback_executed := true |}.
  split; [vm_compute; reflexivity|].
  split; [vm_compute; reflexivity|]. by repeat split.
Qed.

Lemma rollback_idempotent_witness :
  saga (self paris_failed_try) = Some paris_saga /\
  let st1 := snd (rollback host_paris_hotel_fails paris_failed_try) in
  rollback host_paris_hotel_fails st1 = (Returned [], st1) /\
  history (snd (rollback host_paris_hotel_fails st1)) = history st1.
Proof.
  split; [vm_compute; reflexivity|].
  apply (rollback_idempotent host_paris_hotel_fails paris_failed_try paris_saga).
  vm_compute; reflexivity.
Defined.

Lemma execute_with_compensation_contract_witness :
  saga (self (with_new_saga initial_state))
  = Some {| compensation_stack := []; rollback_executed := false |} /\
  (let run_step :=
     execute_with_compensation host_paris_hotel_fails "book_hotel" ∅
       (Some "cancel_hotel") None "step_1" (with_new_saga initial_state) in
   fst run_step = Raised (ActivityError "hotel unavailable") /\
   saga (self (snd run_step))
   = Some {| compensation_stack := []; rollback_executed := false |}) /\
  (let run_step :=
     execute_with_compensation host_paris_hotel_fails "book_flight" ∅
       (Some "cancel_flight") (Some {[ "booking_id" := VStr "{result.booking_id}" ]})
       "step_0" (with_new_saga initial_state) in
   fst run_step = Returned flight_result /\
   saga (self (snd run_step)) =
   Some {| compensation_stack :=
             [] ++
             [ {| activity_name := "cancel_flight";
                  input :=
                    _inject_result_values
                      (default ∅ (Some {[ "booking_id" := VStr "{result.booking_id}" ]}))
                      flight_result;
                  step_id := "step_0" |} ];
           rollback_executed := false |}).
Proof.
  split; [reflexivity|]. split.
  - apply (execute_with_compensation_contract host_paris_hotel_fails "book_hotel" ∅
             (Some "cancel_hotel") None "step_1" (with_new_saga initial_state)
             {| compensation_stack := []; rollback_executed := false |} eq_refl).
    reflexivity.
  - apply (execute_with_compensation_contract host_paris_hotel_fails "book_flight" ∅
             (Some "cancel_flight")
             (Some {[ "booking_id" := VStr "{result.booking_id}" ]}) "step_0"
             (with_new_saga initial_state)
             {| compensation_stack := []; rollback_executed := false |} eq_refl);
      [reflexivity|reflexivity|discriminate].
Defined.

Lemma placeholder_resolved_at_registration_witness :
  saga (self (with_new_saga initial_state))
  = Some {| compensation_stack := []; rollback_executed := false |} /\
  execute_activity host_paris_ok (history (with_new_saga initial_state))
    "book_flight" ∅ 30 3 = Returned flight_result /\
  "cancel_flight" <> "" /\
  ({[ "booking_id" := VStr "{result.booking_id}" ]} : dict) !! "booking_id"
  = Some (VStr ("{result." +:+ "booking_id" +:+ "}")) /\
  PyStr.contains "booking_id" "}" = false /\
  PyStr.contains "booking_id" "{result." = false /\
  let st1 :=
    snd (execute_with_compensation host_paris_ok "book_flight" ∅
           (Some "cancel_flight")
           (Some {[ "booking_id" := VStr "{result.booking_id}" ]}) "step_0"
           (with_new_saga initial_state)) in
  exists entry sg1,
    saga (self st1) = Some sg1 /\
    compensation_stack sg1 = [] ++ [entry] /\
    activity_name entry = "cancel_flight" /\ step_id entry = "step_0" /\
    input entry =
      _inject_result_values {[ "booking_id" := VStr "{result.booking_id}" ]} flight_result /\
    input entry !! "booking_id" =
      Some (default (VStr ("{result." +:+ "booking_id" +:+ "}"))
              (flight_result !! "booking_id")) /\
    forall name' inp' comp' ci' sid',
      let st2 := snd (execute_with_compensation host_paris_ok name' inp' comp' ci' sid' st1) in
      exists sg2,
        saga (self st2) = Some sg2 /\
        compensation_stack sg2 !! length ([] : list CompensationStep) = Some entry.
Proof.
  split; [reflexivity|]. split; [reflexivity|]. split; [discriminate|].
  split; [vm_compute; reflexivity|]. split; [reflexivity|]. split; [reflexivity|].
  apply (placeholder_resolved_at_registration host_paris_ok "book_flight" ∅
           "cancel_flight" {[ "booking_id" := VStr "{result.booking_id}" ]} "step_0"
           (with_new_saga initial_state)
           {| compensation_stack := []; rollback_executed := false |}
           flight_result "booking_id" "booking_id");
    [reflexivity|reflexivity|discriminate|vm_compute; reflexivity
    |reflexivity|reflexivity].
Defined.

(** C7 fails as stated for a field name that holds a closing brace: the
    result has the field ["a}b"], but the name extracted from
    ["{result.a}b}"] is ["ab"], and the placeholder passes through. *)
Lemma placeholder_with_brace_not_resolved :
  let compensation_input : dict := {[ "k" := VStr ("{result." +:+ "a}b" +:+ "}") ]} in
  let result : dict := {[ "a}b" := VStr "v" ]} in
  result !! "a}b" = Some (VStr "v") /\
  _inject_result_values compensation_input result !! "k" = Some (VStr "{result.a}b}") /\
  _inject_result_values compensation_input result !! "k" <> Some (VStr "v").
Proof.
  cbv zeta. split; [vm_compute; reflexivity|].
  assert (_inject_result_values
            ({[ "k" := VStr ("{result." +:+ "a}b" +:+ "}") ]} : dict)
            ({[ "a}b" := VStr "v" ]} : dict) !! "k"
          = Some (VStr "{result.a}b}")) as E by (vm_compute; reflexivity).
  split; [exact E|]. rewrite E. discriminate.
Qed.

(** A field name that holds the opening marker is not extracted
    either. *)
Lemma placeholder_with_marker_not_resolved :
  let compensation_input : dict :=
    {[ "k" := VStr ("{result." +:+ "{result.x" +:+ "}") ]} in
  let result : dict := {[ "{result.x" := VStr "v" ]} in
  _inject_result_values compensation_input result !! "k"
  = Some (VStr "{result.{result.x}").
Proof. vm_compute. reflexivity. Qed.

Lemma successful_run_results_and_last_event_witness :
  step_results (self initial_state) = ∅ /\
  go host_paris_ok = (fst (go host_paris_ok), snd (go host_paris_ok)) /\
  NoDup (step_ids 0 (plan_steps (self (snd (go host_paris_ok))))) /\
  size (step_results (self (snd (go host_paris_ok))))
  = length (plan_steps (self (snd (go host_paris_ok)))) /\
  exists p n r,
    fst (go host_paris_ok) = Returned r /\
    last (events (self (snd (go host_paris_ok))))
    = Some (WorkflowCompleted wid p n r).
Proof.
  split; [reflexivity|]. split; [vm_compute; reflexivity|].
  assert (NoDup (step_ids 0 (plan_steps (self (snd (go host_paris_ok)))))) as Hids.
  { apply (bool_decide_unpack _). vm_compute. exact I. }
  split; [exact Hids|].
  assert (exists r, go host_paris_ok = (Returned r, snd (go host_paris_ok))) as [r Hrun].
  { eexists. vm_compute. reflexivity. }
  destruct (successful_run_results_and_last_event host_paris_ok wid
              "book Paris trip" "user-1" None initial_state r
              (snd (go host_paris_ok)) eq_refl Hrun Hids) as [Hsize (p & n & Hlast)].
  split; [exact Hsize|]. exists p, n, r. split; [by rewrite Hrun|exact Hlast].
Defined.

(** C8 fails as stated when two steps run under the same id: the run
    succeeds, the plan has two steps and the mapping one entry. *)
Lemma twin_plan_results_fewer_than_steps :
  exists r st,
    go host_twin = (Returned r, st) /\
    length (plan_steps (self st)) = 2 /\
    size (step_results (self st)) = 1 /\
    size (step_results (self st)) <> length (plan_steps (self st)).
Proof.
  eexists _, _. split; [vm_compute; reflexivity|].
  by repeat split.
Qed.

Lemma cache_error_is_a_miss_witness :
  check_semantic_cache host_cache_down (history initial_state) "book Paris trip"
  = Raised (ActivityError "cache unavailable") /\
  fst (_check_semantic_cache host_cache_down "book Paris trip" initial_state)
  = Returned None /\
  go host_cache_down = go (with_cache_miss host_cache_down) /\
  history_extends
    (history initial_state ++
     [CheckSemanticCache "book Paris trip";
      GeneratePlanWithLlm "book Paris trip" (default ∅ None)])
    (snd (go host_cache_down)).
Proof.
  split; [reflexivity|].
  apply (cache_error_is_a_miss host_cache_down wid "book Paris trip" "user-1" None
           initial_state "cache unavailable").
  reflexivity.
Defined.


(** C2: at a run whose two steps succeed, the four fields updated by
    [_append_event] are the fold of the state update over the event log,
    but [step_results], which [_execute_plan] assigns directly, holds two
    results while the fold gives the empty mapping; at the run in which
    the hotel booking fails, [failed_step_id] is ["step_1"] while the fold
    gives the empty string. *)
Theorem step_results_and_failed_step_not_folded :
  (let st := snd (go host_paris_ok) in
   (exists r, fst (go host_paris_ok) = Returned r) /\
   derived_from_events st /\
   size (step_results (self st)) = 2 /\
   step_results (replay (events (self st))) = ∅ /\
   step_results (self st) <> step_results (replay (events (self st)))) /\
  (let st := snd (go host_paris_hotel_fails) in
   (exists e, fst (go host_paris_hotel_fails) = Raised e) /\
   derived_from_events st /\
   failed_step_id (self st) = "step_1" /\
   failed_step_id (replay (events (self st))) = "" /\
   failed_step_id (self st) <> failed_step_id (replay (events (self st)))).
Proof.
  cbv zeta. split.
  - split; [eexists; vm_compute; reflexivity|].
    split; [apply derived_run, derived_initial_state|].
    split; [vm_compute; reflexivity|].
    split; [apply replay_step_results|].
    intros E. apply (f_equal size) in E. vm_compute in E. discriminate E.
  - split; [eexists; vm_compute; reflexivity|].
    split; [apply derived_run, derived_initial_state|].
    assert (failed_step_id (self (snd (go host_paris_hotel_fails))) = "step_1") as E
      by (vm_compute; reflexivity).
    split; [exact E|]. split; [apply replay_step_results|].
    rewrite E, (proj2 (replay_step_results _)). discriminate.
Qed.

(** C4 fails as stated: in the run of a plan of 500 steps the log
    reaches 1003 events and the warning is logged four times, at the
    appends that leave 1000, 1001, 1002 and 1003 events. *)
Lemma continue_as_new_warning_repeats :
  let st := snd (go (host_long 500)) in
  length (events (self st)) = 1003 /\
  continue_as_new_warnings st = [1000; 1001; 1002; 1003] /\
  length (continue_as_new_warnings st) <> 1.
Proof.
  cbv zeta.
  assert (continue_as_new_warnings (snd (go (host_long 500)))
          = [1000; 1001; 1002; 1003]) as E by (vm_compute; reflexivity).
  split; [vm_compute; reflexivity|]. split; [exact E|]. rewrite E. discriminate.
Qed.

(** * Further properties *)

(** ** The phases of a run *)

Section PhaseFacts.

Variable host : Host.
Variable workflow_id : string.

Lemma _append_event_step ev st :
  _append_event ev st =
  (Returned tt,
   {| self := update_derived_state ev (append_to_events ev (self st));
      history := history st;
      continue_as_new_warnings := warnings_after_append st |}).
Proof. apply _append_event_eq. Qed.

Lemma run_try_phases g u context st :
  run_try host workflow_id g u context st =
  bind (_append_event (GoalReceived workflow_id g u context)) (fun _ =>
    bind (find_plan host workflow_id g context) (fun _ =>
      execute_and_finish host workflow_id)) st.
Proof.
  unfold run_try, find_plan, execute_and_finish.
  rewrite !(bind_Returned (_append_event _) _ _ _ _ (_append_event_eq _ _)).
  rewrite bind_assoc. reflexivity.
Qed.

(** A run is the recording of the goal, then the search of a plan,
    then either the execution or the handling of the failure. *)
Lemma run_phases g u context st :
  run host workflow_id g u context st =
  match find_plan host workflow_id g context (goal_recorded workflow_id g u context st) with
  | (Returned _, st3) =>
      try_except (execute_and_finish host workflow_id)
                 (run_except host workflow_id) st3
  | (Raised e, st3) => run_except host workflow_id e st3
  end.
Proof.
  rewrite run_eq. unfold try_except at 1. rewrite run_try_phases.
  rewrite (bind_Returned (_append_event _) _ _ _ _ (_append_event_eq _ _)).
  unfold goal_recorded. rewrite _append_event_eq. cbn [snd].
  unfold bind at 1.
  destruct (find_plan _ _ _ _ _) as [[[]|e] st3]; reflexivity.
Qed.

(** What the search of a plan does, in full: it calls the cache, then
    the planner unless the cache gave a plan; if it returns, it has
    appended one [PlanGenerated] and nothing else; if it raises, the
    workflow object is as it was. *)
Lemma find_plan_spec g context st :
  let r := find_plan host workflow_id g context st in
  exists planning,
    (planning = [] \/ planning = [GeneratePlanWithLlm g (default ∅ context)]) /\
    ((exists e,
        r = (Raised e,
             {| self := self st;
                history := history st ++ CheckSemanticCache g :: planning;
                continue_as_new_warnings := continue_as_new_warnings st |})) \/
     (exists p steps hit tid,
        (hit = true /\ planning = [] \/ hit = false /\ planning <> [] /\ tid = None) /\
        r = _append_event (PlanGenerated workflow_id p steps hit tid)
              {| self := self st;
                 history := history st ++ CheckSemanticCache g :: planning;
                 continue_as_new_warnings := continue_as_new_warnings st |})).
Proof.
  cbv zeta.
  unfold find_plan, _check_semantic_cache, try_except_ActivityError, try_except,
    subscript, call_check_semantic_cache, _generate_plan_with_llm.
  cbv [bind ret raise].
  destruct (check_semantic_cache host (history st) g) as [cached|e].
  - destruct (truthy_plan cached) as [cp|] eqn:Hcp; [|cbn [truthy_plan]].
    + assert (truthy_plan (Some cp) = Some cp) as ->.
      { destruct cached as [[[?|] [?|] [?|]]|]; cbn in Hcp; by simplify_eq. }
      exists []. split; [by left|].
      destruct (cp_template_id cp) as [tid|]; [|left; eauto].
      destruct (cp_plan_id cp) as [p|]; [|left; eauto].
      destruct (cp_steps cp) as [steps|]; [|left; eauto].
      right. exists p, steps, true, (Some tid). split; [by left|done].
    + exists [GeneratePlanWithLlm g (default ∅ context)]. split; [by right|].
      cbn [self history continue_as_new_warnings].
      destruct (generate_plan_with_llm host _ g _) as [plan|e];
        rewrite <- app_assoc; cbn [app]; [|left; eauto].
      destruct (gp_plan_id plan) as [p|]; [|left; eauto].
      destruct (gp_steps plan) as [steps|]; [|left; eauto].
      right. exists p, steps, false, None. split; [by right|done].
  - destruct (is_activity_error e) eqn:He; cbn [truthy_plan].
    + exists [GeneratePlanWithLlm g (default ∅ context)]. split; [by right|].
      cbn [self history continue_as_new_warnings].
      destruct (generate_plan_with_llm host _ g _) as [plan|e'];
        rewrite <- app_assoc; cbn [app]; [|left; eauto].
      destruct (gp_plan_id plan) as [p|]; [|left; eauto].
      destruct (gp_steps plan) as [steps|]; [|left; eauto].
      right. exists p, steps, false, None. split; [by right|done].
    + exists []. split; [by left|]. left. eauto.
Qed.

End PhaseFacts.

(** ** Invariants of the execution of a plan *)

Section ExecutionInvariant.

Variable host : Host.
Variable workflow_id : string.
Variable P : State -> Prop.

Hypothesis P_event : forall ev, is_intake ev = false -> preserves P (_append_event ev).
Hypothesis P_saga : forall sg, preserves P (modify_self (set_saga sg)).
Hypothesis P_result : forall sid r, preserves P (modify_self (set_step_result sid r)).
Hypothesis P_failed : forall sid, preserves P (modify_self (set_failed_step_id sid)).
Hypothesis P_step_call :
  forall name inp sid, preserves P (_execute_activity host name inp sid false).

Ltac leaf := first [ apply P_event; reflexivity | apply P_saga | apply P_result
                   | apply P_failed | apply P_step_call | assumption ].

Lemma invariant_execute_steps steps : forall idx,
  preserves P (execute_steps host workflow_id idx steps).
Proof.
  induction steps as [|step steps IH]; intros idx; cbn [execute_steps].
  - apply preserves_ret.
  - apply preserves_bind; [|intros _; apply IH].
    unfold execute_step, execute_with_compensation, get_saga, put_saga.
    preserves_with leaf.
Qed.

Lemma invariant_execute_and_finish :
  preserves P (execute_and_finish host workflow_id).
Proof.
  unfold execute_and_finish, _execute_plan, _handle_success.
  preserves_with ltac:(first [apply invariant_execute_steps | leaf]).
Qed.

Hypothesis P_compensation_call :
  forall name inp sid, preserves P (_execute_activity host name inp sid true).

Lemma invariant_rollback_loop comps : forall results,
  preserves P (rollback_loop host comps results).
Proof.
  induction comps as [|c comps IH]; intros results; cbn [rollback_loop].
  - apply preserves_ret.
  - apply preserves_bind; [|intros ?; apply IH].
    unfold rollback_step. preserves_with ltac:(first [apply P_compensation_call | leaf]).
Qed.

Lemma invariant_run_except e : preserves P (run_except host workflow_id e).
Proof.
  unfold run_except, _handle_failure, rollback, get_saga, put_saga.
  preserves_with ltac:(first [apply invariant_rollback_loop | leaf]).
Qed.

(** The execution of the plan, with the handling of its failure. *)
Lemma invariant_execution :
  preserves P (try_except (execute_and_finish host workflow_id)
                          (run_except host workflow_id)).
Proof.
  apply preserves_try_except;
    [apply invariant_execute_and_finish|apply invariant_run_except].
Qed.

Hypothesis P_plan_event :
  forall c p steps hit tid,
    preserves P (_append_event (PlanGenerated c p steps hit tid)).
Hypothesis P_calls :
  forall st h,
    P st ->
    P {| self := self st; history := history st ++ h;
         continue_as_new_warnings := continue_as_new_warnings st |}.

(** From the recording of the goal to the end of the run. *)
Lemma invariant_run g u context st :
  P (goal_recorded workflow_id g u context st) ->
  P (snd (run host workflow_id g u context st)).
Proof.
  intros HP. rewrite run_phases.
  destruct (find_plan_spec host workflow_id g context
              (goal_recorded workflow_id g u context st))
    as (planning & _ & [[e Hr]|(p & steps & hit & tid & _ & Hr)]);
    cbv zeta in Hr; rewrite Hr.
  - apply invariant_run_except. by apply P_calls.
  - pose proof (P_plan_event workflow_id p steps hit tid _ (P_calls _ (CheckSemanticCache g :: planning) HP)) as H3.
    destruct (_append_event _ _) as [[[]|e] st3] eqn:Happ; cbn [snd] in H3.
    + by apply invariant_execution.
    + by apply invariant_run_except.
Qed.

End ExecutionInvariant.

(** ** What every run does *)

Section EveryRun.

Variable host : Host.
Variable workflow_id : string.

Lemma events_extend_append evs0 ev : preserves (events_extend evs0) (_append_event ev).
Proof.
  intros st HP. rewrite _append_event_eq. unfold events_extend in *.
  cbn [snd self]. rewrite events_update. cbn [append_to_events events].
  by apply prefix_app_r.
Qed.

Lemma goal_recorded_self g u context st :
  self (goal_recorded workflow_id g u context st) =
  update_derived_state (GoalReceived workflow_id g u context)
    (append_to_events (GoalReceived workflow_id g u context)
       (self (with_new_saga st))).
Proof. unfold goal_recorded. by rewrite _append_event_eq. Qed.

Lemma goal_recorded_history g u context st :
  history (goal_recorded workflow_id g u context st) = history st.
Proof. unfold goal_recorded. by rewrite _append_event_eq. Qed.

(** X5: the event log is append-only.  Whatever the outcome, a run
    keeps every event that was in the log, in place, and the first event
    it adds is [GoalReceived] with its goal, user and context. *)
Theorem run_appends_to_the_event_log g u context st :
  (events (self st) ++ [GoalReceived workflow_id g u context])
    `prefix_of` events (self (snd (run host workflow_id g u context st))).
Proof.
  apply (invariant_run host workflow_id
           (events_extend (events (self st) ++ [GoalReceived workflow_id g u context])));
    try (intros; by apply events_extend_append);
    try (by intros; intros ? ?).
  - by intros ? ? ?.
  - unfold events_extend. by rewrite goal_recorded_self.
Qed.

Lemma goal_is_append g u ev :
  (forall c g' u' ctx, ev <> GoalReceived c g' u' ctx) ->
  preserves (goal_is g u) (_append_event ev).
Proof.
  intros Hev st HP. rewrite _append_event_eq. unfold goal_is in *.
  cbn [snd self]. destruct ev; try done. by edestruct Hev.
Qed.

(** X6: whatever the outcome of a run, the goal and the user of the
    workflow are afterwards those the run was started with. *)
Theorem run_records_goal_and_user g u context st :
  goal (self (snd (run host workflow_id g u context st))) = g /\
  user_id (self (snd (run host workflow_id g u context st))) = u.
Proof.
  apply (invariant_run host workflow_id (goal_is g u));
    try (by intros; intros ? ?).
  - intros ev Hev. apply goal_is_append. intros ? ? ? ? ->. discriminate Hev.
  - intros. by apply goal_is_append.
  - by intros ? ? ?.
  - unfold goal_is. by rewrite goal_recorded_self.
Qed.

Lemma warnings_follow_append max n0 w0 ev :
  preserves (warnings_follow max n0 w0) (_append_event ev).
Proof.
  intros st (Hmax & Hle & Hw). rewrite _append_event_eq.
  unfold warnings_follow. cbn [snd self continue_as_new_warnings].
  rewrite MAX_HISTORY_SIZE_update, events_update.
  cbn [append_to_events events MAX_HISTORY_SIZE].
  rewrite length_app, Nat.add_1_r. split; [done|]. split; [lia|].
  replace (S (length (events (self st))) - n0)%nat
    with (S (length (events (self st)) - n0)) by lia.
  rewrite seq_S, filter_app, app_assoc, <- Hw, Hmax. f_equal.
  replace (S n0 + (length (events (self st)) - n0))%nat
    with (S (length (events (self st)))) by lia.
  rewrite filter_cons, filter_nil.
  destruct (Nat.leb_spec max (S (length (events (self st)))));
    case_decide; (done || lia).
Qed.

(** X7: the continue-as-new warnings of a whole run.  Whatever the
    outcome, the run logs one warning for each size, from the threshold
    on, that the event log takes during the run, in order, and no
    other. *)
Theorem run_warnings g u context st :
  let st' := snd (run host workflow_id g u context st) in
  MAX_HISTORY_SIZE (self st') = MAX_HISTORY_SIZE (self st) /\
  (length (events (self st)) <= length (events (self st')))%nat /\
  continue_as_new_warnings st' =
    continue_as_new_warnings st ++
    filter (fun n => (MAX_HISTORY_SIZE (self st) <= n)%nat)
      (seq (S (length (events (self st))))
           (length (events (self st')) - length (events (self st)))).
Proof.
  apply (invariant_run host workflow_id
           (warnings_follow (MAX_HISTORY_SIZE (self st)) (length (events (self st)))
              (continue_as_new_warnings st)));
    try (intros; by apply warnings_follow_append);
    try (by intros; intros ? ?).
  - by intros ? ? ?.
  - apply (warnings_follow_append _ _ _ (GoalReceived workflow_id g u context)
             (with_new_saga st)).
    split; [done|]. split; [done|]. cbn [with_new_saga set_self self set_saga events].
    by rewrite Nat.sub_diag, app_nil_r.
Qed.

End EveryRun.

(** ** Runs that fail before a plan is recorded *)

Section EarlyFailure.

Variable host : Host.
Variable workflow_id : string.









End EarlyFailure.

(** ** The plan of a run *)

Section PlanOfARun.

Variable host : Host.
Variable workflow_id : string.

Lemma plan_is_append p steps ev :
  is_intake ev = false -> preserves (plan_is p steps) (_append_event ev).
Proof.
  intros Hev st HP. rewrite _append_event_eq. unfold plan_is in *.
  cbn [snd self]. by destruct ev.
Qed.

Lemma no_planner_call_append h0 ev :
  preserves (no_planner_call_since h0) (_append_event ev).
Proof. intros st HP. by rewrite _append_event_eq. Qed.

Lemma no_planner_call_activity h0 name inp sid b :
  preserves (no_planner_call_since h0) (_execute_activity host name inp sid b).
Proof.
  intros st (h & Hh & Hall). eexists (h ++ [_]). cbn [snd _execute_activity history].
  rewrite Hh, <- app_assoc. split; [done|].
  apply Forall_app. split; [done|]. by apply Forall_singleton.
Qed.

(** Once the plan is recorded, it stays until the end of the run, the
    events recorded stay, and the planner is not called. *)
Lemma execution_keeps_the_plan p steps st :
  plan_is p steps st ->
  let st' := snd (try_except (execute_and_finish host workflow_id)
                             (run_except host workflow_id) st) in
  plan_is p steps st' /\
  events_extend (events (self st)) st' /\
  no_planner_call_since (history st) st'.
Proof.
  intros Hplan. cbv zeta. split; [|split].
  - apply (invariant_execution host workflow_id (plan_is p steps));
      try (by intros; intros ? ?); [|done].
    intros. by apply plan_is_append.
  - apply (invariant_execution host workflow_id (events_extend (events (self st))));
      try (by intros; intros ? ?); [|by unfold events_extend].
    intros. by apply events_extend_append.
  - apply (invariant_execution host workflow_id (no_planner_call_since (history st)));
      try (by intros; intros ? ?);
      try (intros; by apply no_planner_call_activity).
    + intros. by apply no_planner_call_append.
    + exists []. by rewrite app_nil_r.
Qed.

Lemma find_plan_hit g context st cp tid p steps :
  check_semantic_cache host (history st) g = Returned (Some cp) ->
  cp_template_id cp = Some tid ->
  cp_plan_id cp = Some p ->
  cp_steps cp = Some steps ->
  find_plan host workflow_id g context st =
  _append_event (PlanGenerated workflow_id p steps true (Some tid))
    {| self := self st; history := history st ++ [CheckSemanticCache g];
       continue_as_new_warnings := continue_as_new_warnings st |}.
Proof.
  intros Hhost Htid Hp Hsteps.
  unfold find_plan, _check_semantic_cache, try_except_ActivityError, try_except,
    call_check_semantic_cache, subscript.
  cbv [bind ret raise]. rewrite Hhost.
  assert (truthy_plan (Some cp) = Some cp) as Htruthy.
  { destruct cp as [[?|] [?|] [?|]]; cbn in *; done. }
  by rewrite !Htruthy, Htid, Hp, Hsteps.
Qed.

Lemma find_plan_generated g context st plan p steps :
  check_semantic_cache host (history st) g = Returned None ->
  generate_plan_with_llm host (history st ++ [CheckSemanticCache g]) g
    (default ∅ context) = Returned plan ->
  gp_plan_id plan = Some p ->
  gp_steps plan = Some steps ->
  find_plan host workflow_id g context st =
  _append_event (PlanGenerated workflow_id p steps false None)
    {| self := self st;
       history := history st ++
                  [CheckSemanticCache g; GeneratePlanWithLlm g (default ∅ context)];
       continue_as_new_warnings := continue_as_new_warnings st |}.
Proof.
  intros Hcache Hplanner Hp Hsteps.
  unfold find_plan, _check_semantic_cache, try_except_ActivityError, try_except,
    call_check_semantic_cache, _generate_plan_with_llm, subscript.
  cbv [bind ret raise]. rewrite Hcache. cbn [truthy_plan self history].
  rewrite Hplanner, Hp, Hsteps. by rewrite <- app_assoc.
Qed.

(** The run from a recorded plan on. *)
Lemma run_with_plan g u context st p steps hit tid h :
  find_plan host workflow_id g context (goal_recorded workflow_id g u context st) =
  _append_event (PlanGenerated workflow_id p steps hit tid)
    {| self := self (goal_recorded workflow_id g u context st);
       history := history st ++ h;
       continue_as_new_warnings :=
         continue_as_new_warnings (goal_recorded workflow_id g u context st) |} ->
  let st' := snd (run host workflow_id g u context st) in
  plan_id (self st') = p /\
  plan_steps (self st') = steps /\
  (events (self st) ++
   [GoalReceived workflow_id g u context; PlanGenerated workflow_id p steps hit tid])
    `prefix_of` events (self st') /\
  exists h', history st' = history st ++ h ++ h' /\
             Forall (fun c => is_planner_call c = false) h'.
Proof.
  intros Hfind. cbv zeta. rewrite run_phases, Hfind, _append_event_eq.
  match goal with
  | |- context [try_except _ _ ?s] => set (st3 := s)
  end.
  destruct (execution_keeps_the_plan p steps st3) as ([Hp Hs] & Hev & (h' & Hh & Hall));
    [done|].
  split; [done|]. split; [done|]. split.
  - etrans; [|exact Hev]. subst st3. cbn [self events update_derived_state
      append_to_events]. rewrite goal_recorded_self.
    cbn [events update_derived_state append_to_events with_new_saga set_self self
           set_saga].
    by rewrite <- app_assoc.
  - exists h'. split; [|done]. rewrite Hh. subst st3. cbn [history].
    by rewrite app_assoc.
Qed.

(** X11: on a cache hit the run uses the cached plan and does not call
    the planner: [PlanGenerated] is recorded right after the goal with
    the cached plan id and steps, [cache_hit = True] and the template
    id; the plan id and the steps of the workflow are the cached ones
    until the end of the run; the only call before the steps is the
    lookup, and no call of the run is a planning call. *)
Theorem cache_hit_skips_the_planner g u context st cp tid p steps :
  check_semantic_cache host (history st) g = Returned (Some cp) ->
  cp_template_id cp = Some tid ->
  cp_plan_id cp = Some p ->
  cp_steps cp = Some steps ->
  let st' := snd (run host workflow_id g u context st) in
  plan_id (self st') = p /\
  plan_steps (self st') = steps /\
  (events (self st) ++
   [GoalReceived workflow_id g u context;
    PlanGenerated workflow_id p steps true (Some tid)])
    `prefix_of` events (self st') /\
  exists h', history st' = history st ++ [CheckSemanticCache g] ++ h' /\
             Forall (fun c => is_planner_call c = false) h'.
Proof.
  intros Hhost Htid Hp Hsteps.
  apply run_with_plan.
  rewrite <- (goal_recorded_history workflow_id g u context st).
  apply find_plan_hit with cp; try done. by rewrite goal_recorded_history.
Qed.

(** X12: on a cache miss the run executes the plan of the planner, which
    is called once, right after the lookup: [PlanGenerated] is recorded
    right after the goal with the generated plan id and steps and
    [cache_hit = False]; the plan id and the steps of the workflow are
    the generated ones until the end of the run. *)
Theorem cache_miss_uses_the_generated_plan g u context st plan p steps :
  check_semantic_cache host (history st) g = Returned None ->
  generate_plan_with_llm host (history st ++ [CheckSemanticCache g]) g
    (default ∅ context) = Returned plan ->
  gp_plan_id plan = Some p ->
  gp_steps plan = Some steps ->
  let st' := snd (run host workflow_id g u context st) in
  plan_id (self st') = p /\
  plan_steps (self st') = steps /\
  (events (self st) ++
   [GoalReceived workflow_id g u context;
    PlanGenerated workflow_id p steps false None])
    `prefix_of` events (self st') /\
  exists h',
    history st' =
      history st ++
      [CheckSemanticCache g; GeneratePlanWithLlm g (default ∅ context)] ++ h' /\
    Forall (fun c => is_planner_call c = false) h'.
Proof.
  intros Hcache Hplanner Hp Hsteps.
  apply run_with_plan.
  rewrite <- (goal_recorded_history workflow_id g u context st).
  apply find_plan_generated with plan; try done; by rewrite goal_recorded_history.
Qed.

End PlanOfARun.

(** ** The execution of the steps *)

Section Steps.

Variable host : Host.
Variable workflow_id : string.

(** A step that returns: what it has called, recorded and registered. *)
Lemma execute_step_returns idx step st st' :
  execute_step host workflow_id idx step st = (Returned tt, st') ->
  let id := step_id_of idx step in
  let inp := default ∅ (ps_input step) in
  exists tool result sg sg',
    ps_tool step = Some tool /\
    saga (self st) = Some sg /\
    execute_activity host (history st) tool inp 30 3 = Returned result /\
    history st' = history st ++ [ExecuteActivity tool inp 30 3] /\
    events (self st') =
      events (self st) ++
      [ToolCallRequested workflow_id tool inp id (ps_compensation step);
       ToolResultReceived workflow_id tool id true (Some result) None] /\
    step_results (self st') = <[id := result]> (step_results (self st)) /\
    failed_step_id (self st') = failed_step_id (self st) /\
    plan_steps (self st') = plan_steps (self st) /\
    plan_id (self st') = plan_id (self st) /\
    saga (self st') = Some sg' /\
    rollback_executed sg' = rollback_executed sg /\
    compensation_stack sg' =
      compensation_stack sg ++
      match truthy_str (ps_compensation step) with
      | Some c =>
          [ {| activity_name := c;
               input := _inject_result_values
                          (default ∅ (ps_compensation_input step)) result;
               step_id := id |} ]
      | None => []
      end.
Proof.
  unfold execute_step, execute_with_compensation, try_except_ActivityError,
    try_except, subscript, get_saga, put_saga.
  cbv [bind ret raise get_self modify_self _execute_activity negb].
  intros H.
  repeat first
    [ rewrite _append_event_step in *
    | progress cbn [fst snd self history continue_as_new_warnings] in *
    | case_match ];
    simplify_eq; cbv zeta;
    cbn [self set_self set_step_result set_saga update_derived_state
           append_to_events events step_results failed_step_id plan_steps plan_id
           saga history] in *;
    simplify_eq;
    eexists _, _, _, _;
    repeat (apply conj); try done; cbn [compensation_stack];
    by rewrite <- ?app_assoc, ?app_nil_r.
Qed.

(** A step that raises: an [ActivityError] is recorded, another
    exception is not. *)
Lemma execute_step_raises idx step st e st' :
  execute_step host workflow_id idx step st = (Raised e, st') ->
  let id := step_id_of idx step in
  let inp := default ∅ (ps_input step) in
  saga (self st') = saga (self st) /\
  step_results (self st') = step_results (self st) /\
  plan_steps (self st') = plan_steps (self st) /\
  if is_activity_error e
  then exists tool,
         ps_tool step = Some tool /\
         failed_step_id (self st') = id /\
         events (self st') =
           events (self st) ++
           [ToolCallRequested workflow_id tool inp id (ps_compensation step);
            ToolResultReceived workflow_id tool id false None (Some (str e))]
  else failed_step_id (self st') = failed_step_id (self st).
Proof.
  unfold execute_step, execute_with_compensation, try_except_ActivityError,
    try_except, subscript, get_saga, put_saga.
  cbv [bind ret raise get_self modify_self _execute_activity negb].
  intros H.
  repeat first
    [ rewrite _append_event_step in *
    | progress cbn [fst snd self history continue_as_new_warnings] in *
    | case_match ];
    simplify_eq; cbv zeta;
    cbn [self set_self set_failed_step_id set_saga update_derived_state
           append_to_events events step_results failed_step_id plan_steps plan_id
           saga history is_activity_error] in *;
    simplify_eq; try congruence;
    repeat (apply conj); try done;
    try (match goal with H : is_activity_error ?e = _ |- _ => rewrite H end);
    try done;
    eexists; repeat (apply conj); try done; by rewrite <- ?app_assoc.
Qed.

Lemma length_compensations_le steps : forall idx,
  (length (compensations idx steps) <= length steps)%nat.
Proof.
  induction steps as [|step steps IH]; intros idx; cbn [compensations]; [done|].
  rewrite length_app. specialize (IH (S idx)).
  destruct (truthy_str _); cbn [length]; lia.
Qed.

(** A plan executed to its end: the steps ran in the order of the
    plan, each with one call and two events, and the compensations were
    registered in that order. *)
Lemma execute_steps_returns steps : forall idx st st' sg,
  execute_steps host workflow_id idx steps st = (Returned tt, st') ->
  saga (self st) = Some sg ->
  exists sg',
    saga (self st') = Some sg' /\
    rollback_executed sg' = rollback_executed sg /\
    (fun c => (activity_name c, step_id c)) <$> compensation_stack sg' =
      ((fun c => (activity_name c, step_id c)) <$> compensation_stack sg) ++
      compensations idx steps /\
    history st' = history st ++ omap step_call steps /\
    length (omap step_call steps) = length steps /\
    length (events (self st')) = (length (events (self st)) + 2 * length steps)%nat /\
    failed_step_id (self st') = failed_step_id (self st) /\
    plan_steps (self st') = plan_steps (self st) /\
    plan_id (self st') = plan_id (self st).
Proof.
  induction steps as [|step steps IH]; intros idx st st' sg H Hsg; cbn in H.
  - injection H as <-. exists sg. cbn. rewrite !app_nil_r.
    repeat (apply conj); (done || lia).
  - apply bind_inv_Returned in H as ([] & st1 & Hstep & Hrest).
    apply execute_step_returns in Hstep
      as (tool & result & sg0 & sg1 & Htool & Hsg0 & Hhost & Hhist & Hev & _ & Hfailed
          & Hsteps & Hid & Hsg1 & Hflag & Hstack).
    assert (sg0 = sg) as -> by congruence.
    destruct (IH (S idx) st1 st' sg1 Hrest Hsg1)
      as (sg' & Hsg' & Hflag' & Hstack' & Hhist' & Hlen & Hev' & Hfailed' & Hsteps'
          & Hid').
    assert (omap step_call (step :: steps) =
            ExecuteActivity tool (default ∅ (ps_input step)) 30 3
              :: omap step_call steps) as Hcalls.
    { change (omap step_call (step :: steps))
        with (match step_call step with
              | Some c => c :: omap step_call steps
              | None => omap step_call steps
              end).
      unfold step_call at 1. by rewrite Htool. }
    exists sg'. split; [done|]. split; [congruence|]. split.
    { rewrite Hstack', Hstack, fmap_app, <- app_assoc. f_equal.
      cbn [compensations]. f_equal. by destruct (truthy_str _). }
    split.
    { by rewrite Hhist', Hhist, <- app_assoc, Hcalls. }
    split.
    { rewrite Hcalls. cbn [length]. by rewrite Hlen. }
    split.
    { rewrite Hev', Hev, length_app. cbn [length]. lia. }
    split; [congruence|]. split; congruence.
Qed.

(** A plan whose execution raises. *)
Lemma execute_steps_raises steps : forall idx st e st',
  execute_steps host workflow_id idx steps st = (Raised e, st') ->
  if is_activity_error e
  then exists k step tool,
         steps !! k = Some step /\
         ps_tool step = Some tool /\
         failed_step_id (self st') = step_id_of (idx + k) step /\
         last (events (self st')) =
           Some (ToolResultReceived workflow_id tool (step_id_of (idx + k) step)
                   false None (Some (str e))) /\
         length (events (self st')) = (length (events (self st)) + 2 * k + 2)%nat
  else failed_step_id (self st') = failed_step_id (self st).
Proof.
  induction steps as [|step steps IH]; intros idx st e st' H; cbn in H; [done|].
  apply bind_inv_Raised in H as [Hstep|([] & st1 & Hstep & Hrest)].
  - apply execute_step_raises in Hstep as (_ & _ & _ & Hcase).
    destruct (is_activity_error e); [|done].
    destruct Hcase as (tool & Htool & Hfailed & Hev).
    exists 0, step, tool. rewrite Nat.add_0_r. split; [done|]. split; [done|].
    split; [done|]. rewrite Hev. split.
    + by rewrite last_app.
    + rewrite length_app. cbn [length]. lia.
  - apply execute_step_returns in Hstep
      as (tool & result & sg0 & sg1 & _ & _ & _ & _ & Hev & _ & Hfailed & _).
    specialize (IH (S idx) st1 e st' Hrest).
    destruct (is_activity_error e); [|congruence].
    destruct IH as (k & step' & tool' & Hk & Htool' & Hfailed' & Hlast & Hlen).
    exists (S k), step', tool'. replace (idx + S k)%nat with (S idx + k)%nat by lia.
    split; [done|]. split; [done|]. split; [done|]. split; [done|].
    rewrite Hlen, Hev, length_app. cbn [length]. lia.
Qed.

End Steps.

(** ** Successful and failed executions *)

Section Executions.

Variable host : Host.
Variable workflow_id : string.

Lemma run_except_raises e st r st' :
  run_except host workflow_id e st = (Returned r, st') -> False.
Proof.
  unfold run_except. intros H.
  apply bind_inv_Returned in H as (d & st1 & _ & H). discriminate H.
Qed.

Lemma _handle_success_eq st :
  _handle_success workflow_id st =
  (Returned {| sr_status := "completed"; sr_plan_id := plan_id (self st);
               sr_steps_executed := length (plan_steps (self st));
               sr_results := step_results (self st) |},
   {| self :=
        append_to_events
          (WorkflowCompleted workflow_id (plan_id (self st))
             (length (plan_steps (self st)))
             {| sr_status := "completed"; sr_plan_id := plan_id (self st);
                sr_steps_executed := length (plan_steps (self st));
                sr_results := step_results (self st) |})
          (self st);
      history := history st;
      continue_as_new_warnings := warnings_after_append st |}).
Proof.
  unfold _handle_success. cbv [bind get_self ret]. by rewrite _append_event_step.
Qed.

(** The anatomy of a successful run: a plan was found and recorded,
    its steps were executed to the end, and the success was recorded. *)
Lemma run_Returned_anatomy g u context st r st' :
  run host workflow_id g u context st = (Returned r, st') ->
  exists p steps hit tid planning st4,
    (planning = [] \/ planning = [GeneratePlanWithLlm g (default ∅ context)]) /\
    execute_steps host workflow_id 0 steps
      {| self :=
           update_derived_state (PlanGenerated workflow_id p steps hit tid)
             (append_to_events (PlanGenerated workflow_id p steps hit tid)
                (self (goal_recorded workflow_id g u context st)));
         history := history st ++ CheckSemanticCache g :: planning;
         continue_as_new_warnings :=
           warnings_after_append
             {| self := self (goal_recorded workflow_id g u context st);
                history := history st ++ CheckSemanticCache g :: planning;
                continue_as_new_warnings :=
                  continue_as_new_warnings (goal_recorded workflow_id g u context st) |} |}
    = (Returned tt, st4) /\
    _handle_success workflow_id st4 = (Returned r, st').
Proof.
  rewrite run_phases. intros Hrun.
  destruct (find_plan_spec host workflow_id g context
              (goal_recorded workflow_id g u context st))
    as (planning & Hplanning & [[e Hr]|(p & steps & hit & tid & _ & Hr)]);
    cbv zeta in Hr; rewrite Hr in Hrun.
  - by apply run_except_raises in Hrun.
  - rewrite _append_event_step in Hrun. unfold try_except in Hrun.
    destruct (execute_and_finish _ _ _) as [[r0|e] st1] eqn:Hexec;
      [|by apply run_except_raises in Hrun].
    injection Hrun as -> ->.
    unfold execute_and_finish in Hexec.
    apply bind_inv_Returned in Hexec as ([] & st4 & Hplan & Hsuccess).
    unfold _execute_plan in Hplan. cbv [bind get_self] in Hplan.
    cbn [self update_derived_state plan_steps] in Hplan.
    rewrite goal_recorded_history in *.
    by exists p, steps, hit, tid, planning, st4.
Qed.

(** X13: after a successful run the saga has not been rolled back and
    its stack holds, in the order of the plan, one compensation for each
    step that names one, under the id the step was executed with. *)
Theorem successful_run_registers_compensations_in_plan_order g u context st r st' :
  run host workflow_id g u context st = (Returned r, st') ->
  exists sg,
    saga (self st') = Some sg /\
    rollback_executed sg = false /\
    (fun c => (activity_name c, step_id c)) <$> compensation_stack sg
    = compensations 0 (plan_steps (self st')).
Proof.
  intros Hrun.
  apply run_Returned_anatomy in Hrun
    as (p & steps & hit & tid & planning & st4 & _ & Hsteps & Hsuccess).
  eapply execute_steps_returns in Hsteps
    as (sg & Hsg & Hflag & Hstack & _ & _ & _ & _ & Hplan & _);
    [|cbn [self]; rewrite saga_update; cbn [append_to_events saga];
      rewrite goal_recorded_self, saga_update; reflexivity].
  rewrite _handle_success_eq in Hsuccess. injection Hsuccess as <- <-.
  exists sg. cbn [self append_to_events saga plan_steps].
  split; [done|]. split; [done|]. by rewrite Hstack, Hplan.
Qed.



(** X16: when the execution of the plan raises an [ActivityError], the
    step that failed is recorded: [failed_step_id] is the id it was
    executed with and the last event is its [ToolResultReceived] with
    [success = False] and the message of the error.  Each step before it
    has added two events and no step after it has added any. *)
Theorem failed_step_is_recorded st e st' :
  _execute_plan host workflow_id st = (Raised e, st') ->
  is_activity_error e = true ->
  exists k step tool,
    plan_steps (self st) !! k = Some step /\
    ps_tool step = Some tool /\
    failed_step_id (self st') = step_id_of k step /\
    last (events (self st')) =
      Some (ToolResultReceived workflow_id tool (step_id_of k step)
              false None (Some (str e))) /\
    length (events (self st')) = (length (events (self st)) + 2 * k + 2)%nat.
Proof.
  unfold _execute_plan. cbv [bind get_self]. intros H He.
  apply execute_steps_raises in H. rewrite He in H. exact H.
Qed.

(** X17: when the execution of the plan raises an exception that is not
    an [ActivityError] (a step without ["tool"], for one), the failing
    step is not recorded: [failed_step_id] is what it was before. *)
Theorem other_exception_is_not_recorded st e st' :
  _execute_plan host workflow_id st = (Raised e, st') ->
  is_activity_error e = false ->
  failed_step_id (self st') = failed_step_id (self st).
Proof.
  unfold _execute_plan. cbv [bind get_self]. intros H He.
  apply execute_steps_raises in H. by rewrite He in H.
Qed.





End Executions.

(** ** The saga on its own *)

Section Saga.

Variable host : Host.

Lemma well_formed_compensation_entry c o : well_formed_entry (compensation_entry c o).
Proof. destruct o; cbn; eauto. Qed.

(** X1: [rollback] is best effort.  On an existing saga it never
    raises, whatever the compensations do: a first rollback returns one
    entry for each compensation of the stack, a later one none, and each
    entry is either a success with its result or a failure with the
    message of its error. *)
Theorem rollback_never_raises st sg :
  saga (self st) = Some sg ->
  exists rs st',
    rollback host st = (Returned rs, st') /\
    length rs =
      (if rollback_executed sg then 0 else length (compensation_stack sg)) /\
    Forall well_formed_entry rs.
Proof.
  intros Hsg. destruct (rollback_executed sg) eqn:Hflag.
  - rewrite (rollback_done host st sg Hsg Hflag). by exists [], st.
  - destruct (rollback_armed host st sg Hsg Hflag) as (rs & Heq & Hids & Hentries).
    exists rs. eexists. split; [exact Heq|].
    assert (length rs = length (compensation_stack sg)) as Hlen.
    { apply (f_equal length) in Hids.
      by rewrite length_reverse, !length_fmap in Hids. }
    split; [done|].
    apply Forall_lookup. intros i r Hr.
    destruct (lookup_lt_is_Some_2 (reverse (compensation_stack sg)) i) as [c Hc].
    { rewrite length_reverse, <- Hlen. by eapply lookup_lt_Some. }
    rewrite (Hentries i c Hc) in Hr. injection Hr as <-.
    apply well_formed_compensation_entry.
Qed.

(** X2: a step without compensation registers nothing.  When the
    activity succeeds and no compensation activity is given, or the
    empty name, the result is returned and the saga is as it was. *)
Theorem no_compensation_registers_nothing name inp comp ci sid st sg result :
  saga (self st) = Some sg ->
  execute_activity host (history st) name inp 30 3 = Returned result ->
  comp = None \/ comp = Some "" ->
  fst (execute_with_compensation host name inp comp ci sid st) = Returned result /\
  saga (self (snd (execute_with_compensation host name inp comp ci sid st))) = Some sg.
Proof.
  intros Hsg Hhost Hcomp.
  rewrite (execute_with_compensation_plain host name inp comp ci sid st sg result);
    [done..|]. by destruct Hcomp as [-> | ->].
Qed.


(** X4: against an empty result nothing is resolved: the compensation
    input comes back as it was, placeholders included. *)
Theorem injection_with_empty_result (ci : dict) :
  _inject_result_values ci ∅ = ci.
Proof.
  rewrite _inject_result_values_fmap. apply map_eq. intros key.
  rewrite lookup_fmap. destruct (ci !! key) as [v|]; [|done]. cbn. f_equal.
  destruct v; try done. unfold inject_value.
  destruct (PyStr.startswith _ _); [|done]. cbv zeta. by rewrite lookup_empty.
Qed.

End Saga.

(** ** More concrete runs *)

Import Scenario2.

Lemma rollback_never_raises_witness :
  saga (self paris_failed_try) = Some paris_saga /\
  exists rs st',
    rollback host_paris_hotel_fails paris_failed_try = (Returned rs, st') /\
    length rs =
      (if rollback_executed paris_saga then 0
       else length (compensation_stack paris_saga)) /\
    Forall well_formed_entry rs.
Proof.
  split; [vm_compute; reflexivity|].
  apply (rollback_never_raises host_paris_hotel_fails paris_failed_try paris_saga).
  vm_compute; reflexivity.
Defined.

Lemma no_compensation_registers_nothing_witness :
  saga (self (with_new_saga initial_state))
  = Some {| compensation_stack := []; rollback_executed := false |} /\
  execute_activity host_paris_ok (history (with_new_saga initial_state))
    "book_flight" ∅ 30 3 = Returned flight_result /\
  (Some "" = None \/ Some "" = Some "") /\
  fst (execute_with_compensation host_paris_ok "book_flight" ∅ (Some "") None "step_0"
         (with_new_saga initial_state)) = Returned flight_result /\
  saga (self (snd (execute_with_compensation host_paris_ok "book_flight" ∅ (Some "")
                     None "step_0" (with_new_saga initial_state))))
  = Some {| compensation_stack := []; rollback_executed := false |}.
Proof.
  split; [reflexivity|]. split; [reflexivity|]. split; [by right|].
  apply (no_compensation_registers_nothing host_paris_ok "book_flight" ∅ (Some "")
           None "step_0" (with_new_saga initial_state)
           {| compensation_stack := []; rollback_executed := false |} flight_result);
    [reflexivity|reflexivity|by right].
Defined.





Lemma cache_hit_skips_the_planner_witness :
  check_semantic_cache host_cache_hit (history initial_state) "book Paris trip"
  = Returned (Some cached_paris) /\
  cp_template_id cached_paris = Some "T1" /\
  cp_plan_id cached_paris = Some "plan_c" /\
  cp_steps cached_paris = Some paris_plan /\
  let st' := snd (go host_cache_hit) in
  plan_id (self st') = "plan_c" /\
  plan_steps (self st') = paris_plan /\
  (events (self initial_state) ++
   [GoalReceived wid "book Paris trip" "user-1" None;
    PlanGenerated wid "plan_c" paris_plan true (Some "T1")])
    `prefix_of` events (self st') /\
  exists h',
    history st' = history initial_state ++ [CheckSemanticCache "book Paris trip"] ++ h' /\
    Forall (fun c => is_planner_call c = false) h'.
Proof.
  do 4 (split; [reflexivity|]).
  apply (cache_hit_skips_the_planner host_cache_hit wid "book Paris trip" "user-1"
           None initial_state cached_paris "T1" "plan_c" paris_plan); reflexivity.
Defined.

Lemma cache_miss_uses_the_generated_plan_witness :
  check_semantic_cache host_paris_ok (history initial_state) "book Paris trip"
  = Returned None /\
  generate_plan_with_llm host_paris_ok
    (history initial_state ++ [CheckSemanticCache "book Paris trip"])
    "book Paris trip" (default ∅ None)
  = Returned {| gp_plan_id := Some "plan_1"; gp_steps := Some paris_plan |} /\
  gp_plan_id {| gp_plan_id := Some "plan_1"; gp_steps := Some paris_plan |}
  = Some "plan_1" /\
  gp_steps {| gp_plan_id := Some "plan_1"; gp_steps := Some paris_plan |}
  = Some paris_plan /\
  let st' := snd (go host_paris_ok) in
  plan_id (self st') = "plan_1" /\
  plan_steps (self st') = paris_plan /\
  (events (self initial_state) ++
   [GoalReceived wid "book Paris trip" "user-1" None;
    PlanGenerated wid "plan_1" paris_plan false None])
    `prefix_of` events (self st') /\
  exists h',
    history st' =
      history initial_state ++
      [CheckSemanticCache "book Paris trip";
       GeneratePlanWithLlm "book Paris trip" (default ∅ None)] ++ h' /\
    Forall (fun c => is_planner_call c = false) h'.
Proof.
  do 4 (split; [reflexivity|]).
  apply (cache_miss_uses_the_generated_plan host_paris_ok wid "book Paris trip"
           "user-1" None initial_state
           {| gp_plan_id := Some "plan_1"; gp_steps := Some paris_plan |}
           "plan_1" paris_plan); reflexivity.
Defined.

Lemma successful_run_registers_compensations_in_plan_order_witness :
  exists r st',
    go host_paris_ok = (Returned r, st') /\
    exists sg,
      saga (self st') = Some sg /\
      rollback_executed sg = false /\
      (fun c => (activity_name c, step_id c)) <$> compensation_stack sg
      = compensations 0 (plan_steps (self st')).
Proof.
  eexists _, _. split; [vm_compute; reflexivity|].
  eapply (successful_run_registers_compensations_in_plan_order host_paris_ok wid
            "book Paris trip" "user-1" None initial_state).
  vm_compute; reflexivity.
Defined.



Lemma failed_step_is_recorded_witness :
  exists st',
    _execute_plan host_paris_hotel_fails wid (plan_recorded host_paris_hotel_fails)
    = (Raised (ActivityError "hotel unavailable"), st') /\
    is_activity_error (ActivityError "hotel unavailable") = true /\
    exists k step tool,
      plan_steps (self (plan_recorded host_paris_hotel_fails)) !! k = Some step /\
      ps_tool step = Some tool /\
      failed_step_id (self st') = step_id_of k step /\
      last (events (self st')) =
        Some (ToolResultReceived wid tool (step_id_of k step) false None
                (Some (str (ActivityError "hotel unavailable")))) /\
      length (events (self st')) =
        (length (events (self (plan_recorded host_paris_hotel_fails))) + 2 * k + 2)%nat.
Proof.
  eexists. split; [vm_compute; reflexivity|]. split; [reflexivity|].
  eapply (failed_step_is_recorded host_paris_hotel_fails wid
            (plan_recorded host_paris_hotel_fails)
            (ActivityError "hotel unavailable")); [vm_compute; reflexivity|reflexivity].
Defined.

Lemma other_exception_is_not_recorded_witness :
  exists st',
    _execute_plan host_without_tool wid (plan_recorded host_without_tool)
    = (Raised (KeyError "tool"), st') /\
    is_activity_error (KeyError "tool") = false /\
    failed_step_id (self st') = failed_step_id (self (plan_recorded host_without_tool)).
Proof.
  eexists. split; [vm_compute; reflexivity|]. split; [reflexivity|].
  eapply (other_exception_is_not_recorded host_without_tool wid
            (plan_recorded host_without_tool) (KeyError "tool"));
    [vm_compute; reflexivity|reflexivity].
Defined.

